(** * CRUD service over users, items and orders (src/main.py)

    A shallow embedding of the twelve request handlers of [main.py], the
    tables they work on and the statements they send to the store, followed by
    the properties of the handlers.

    Python values are modelled as follows.
    - [int] is [Z]; [str] is [string]; [float] is the IEEE value [spec_float];
      a naive [datetime] is its number of microseconds since the epoch.
    - A [dict] with string keys is a [gmap string Value].
    - An [async def] handler is a function from the world before the request
      to its outcome and the world after it ([M]): the world holds the three
      tables, the wall clock read by [datetime.utcnow()], the text written by
      [print], and the outcome the driver has in store for each coming call.
    - [raise] and [try ... except Exception] are the error part of [M].
      [HTTPException] derives from [Exception], so an [except Exception]
      clause catches it like any other exception.
    - A route is its handler followed by what the decorator declares: the
      response model and the rendering of the result. *)

From Stdlib Require Import ZArith String Ascii List DecimalString DecimalPos.
From Stdlib Require Import SpecFloat.
From stdpp Require Import gmap strings list fin_maps.

Local Open Scope string_scope.
Local Open Scope Z_scope.

(** ** Values, dictionaries, exceptions *)

Definition datetime := Z.

Inductive Value :=
| VInt (n : Z)
| VStr (s : string)
| VFloat (x : spec_float)
| VDateTime (t : datetime).

Abbreviation Dict := (gmap string Value).

(** The exceptions a handler can meet.  [str(e)] depends on the class of [e]
    and on the version of the library that defines it, so the text it yields
    is kept symbolic: [StrOf e] is [str(e)], [FString p e] is [f"p{e}"]. *)
Inductive Exn :=
| HTTPException (status_code : Z) (detail : Msg)
| IntegrityError (message : string)
| OperationalError (statement : string)
| OverflowError (message : string)
| DriverError (message : string)
with Msg :=
| Literal (s : string)
| StrOf (e : Exn)
| FString (prefix : string) (e : Exn).

Inductive Result (A : Type) :=
| Ok (a : A)
| Raise (e : Exn).
Arguments Ok {A} a.
Arguments Raise {A} e.

(** ** Request and row shapes *)

(** The pydantic models of the request bodies. *)
Record UserCreate := {
  first_name : string;
  last_name : string;
  email : string;
  password : string }.

Record ItemCreate := {
  name : string;
  description : string;
  price : spec_float }.

Record OrderCreate := {
  user_id : Z;
  item_id : Z }.

(** [user.dict()], [item.dict()], [order.dict()]. *)
Definition UserCreate_dict (user : UserCreate) : Dict :=
  <["first_name" := VStr (first_name user)]>
  (<["last_name" := VStr (last_name user)]>
  (<["email" := VStr (email user)]>
  (<["password" := VStr (password user)]> ∅))).

Definition ItemCreate_dict (item : ItemCreate) : Dict :=
  <["name" := VStr (name item)]>
  (<["description" := VStr (description item)]>
  (<["price" := VFloat (price item)]> ∅)).

Definition OrderCreate_dict (order : OrderCreate) : Dict :=
  <["user_id" := VInt (user_id order)]>
  (<["item_id" := VInt (item_id order)]> ∅).

(** The fields of the response models, in declaration order. *)
Definition UserCreate_fields : list string :=
  ["first_name"; "last_name"; "email"; "password"].
Definition ItemRead_fields : list string :=
  ["id"; "name"; "description"; "price"].
Definition OrderResponse_fields : list string :=
  ["id"; "user_id"; "item_id"; "order_date"; "status"].
Definition OrderRead_fields : list string :=
  ["id"; "user_id"; "item_id"; "order_date"; "status"].

(** The tables.  A table is keyed by its primary key [id]; a row record holds
    the other columns. *)
Module User.
Record row := {
  first_name : string;
  last_name : string;
  email : string;
  password : string }.

Definition to_dict (id : Z) (r : row) : Dict :=
  <["id" := VInt id]>
  (<["first_name" := VStr (first_name r)]>
  (<["last_name" := VStr (last_name r)]>
  (<["email" := VStr (email r)]>
  (<["password" := VStr (password r)]> ∅)))).
End User.

Module Item.
Record row := {
  name : string;
  description : string;
  price : spec_float }.

Definition to_dict (id : Z) (r : row) : Dict :=
  <["id" := VInt id]>
  (<["name" := VStr (name r)]>
  (<["description" := VStr (description r)]>
  (<["price" := VFloat (price r)]> ∅))).
End Item.

Module Order.
Record row := {
  user_id : Z;
  item_id : Z;
  order_date : datetime;
  status : string }.

Definition to_dict (id : Z) (r : row) : Dict :=
  <["id" := VInt id]>
  (<["user_id" := VInt (user_id r)]>
  (<["item_id" := VInt (item_id r)]>
  (<["order_date" := VDateTime (order_date r)]>
  (<["status" := VStr (status r)]> ∅)))).

Definition set_status (s : string) (r : row) : row :=
  {| user_id := user_id r; item_id := item_id r;
     order_date := order_date r; status := s |}.
End Order.

(** ** The world *)

Record World := {
  users : gmap Z User.row;
  items : gmap Z Item.row;
  orders : gmap Z Order.row;
  (** [clock n] is what the [n]-th call of [datetime.utcnow()] returns. *)
  clock : nat → datetime;
  ticks : nat;
  (** What the driver does at its coming calls, first call first: [Some e]
      is a call that raises [e] without running its statement (a lost
      connection, a locked file); [None], or an exhausted list, is a call
      that runs. *)
  faults : list (option Exn);
  (** The lines written by [print], latest first. *)
  stdout : list Msg }.

Definition set_users (f : gmap Z User.row → gmap Z User.row) (w : World) : World :=
  {| users := f (users w); items := items w; orders := orders w;
     clock := clock w; ticks := ticks w; faults := faults w; stdout := stdout w |}.

Definition set_items (f : gmap Z Item.row → gmap Z Item.row) (w : World) : World :=
  {| users := users w; items := f (items w); orders := orders w;
     clock := clock w; ticks := ticks w; faults := faults w; stdout := stdout w |}.

Definition set_orders (f : gmap Z Order.row → gmap Z Order.row) (w : World) : World :=
  {| users := users w; items := items w; orders := f (orders w);
     clock := clock w; ticks := ticks w; faults := faults w; stdout := stdout w |}.

Definition set_ticks (n : nat) (w : World) : World :=
  {| users := users w; items := items w; orders := orders w;
     clock := clock w; ticks := n; faults := faults w; stdout := stdout w |}.

Definition set_faults (l : list (option Exn)) (w : World) : World :=
  {| users := users w; items := items w; orders := orders w;
     clock := clock w; ticks := ticks w; faults := l; stdout := stdout w |}.

Definition set_stdout (l : list Msg) (w : World) : World :=
  {| users := users w; items := items w; orders := orders w;
     clock := clock w; ticks := ticks w; faults := faults w; stdout := l |}.

(** ** The monad of handlers *)

Definition M (A : Type) : Type := World → Result A * World.

Definition ret {A} (a : A) : M A := fun w => (Ok a, w).

Definition raise {A} (e : Exn) : M A := fun w => (Raise e, w).

Definition bind {A B} (c : M A) (k : A → M B) : M B :=
  fun w =>
    match c w with
    | (Ok a, w') => k a w'
    | (Raise e, w') => (Raise e, w')
    end.

(** [try: c except Exception as e: h e]. *)
Definition try_except {A} (c : M A) (h : Exn → M A) : M A :=
  fun w =>
    match c w with
    | (Ok a, w') => (Ok a, w')
    | (Raise e, w') => h e w'
    end.

Declare Scope py_scope.
Delimit Scope py_scope with py.
Notation "x <- c ;; k" := (bind c (fun x => k))
  (at level 100, c at next level, right associativity) : py_scope.
Notation "c ;; k" := (bind c (fun _ => k))
  (at level 100, right associativity) : py_scope.
Notation "'try' c 'except' e '=>' h" := (try_except c (fun e => h))
  (at level 10, c at level 100, e name, h at level 200) : py_scope.
Local Open Scope py_scope.

(** [datetime.utcnow()]. *)
Definition utcnow : M datetime :=
  fun w => (Ok (clock w (ticks w)), set_ticks (S (ticks w)) w).

(** [print(m)]. *)
Definition print (m : Msg) : M unit :=
  fun w => (Ok tt, set_stdout (m :: stdout w) w).

(** ** The store

    The store is SQLite behind the [databases] driver.  What matters of it
    to the handlers is modelled here: an insert gives the new row the
    identifier one above the largest in use (1 in an empty table); an integer
    bound to a statement has to fit 64 bits; the column [users.email] is
    declared [unique=True]; and a statement given as text is parsed by the
    store, not by the application.  No foreign key of [orders] carries an
    [ondelete] rule, and every statement is committed on its own. *)

(** *** Statements built with the table objects *)

Inductive Select :=
| users_select (id : Z)
| items_select (id : Z)
| orders_select (id : Z).

Inductive Statement :=
| users_insert (values : UserCreate)
| users_update (id : Z) (values : UserCreate)
| users_delete (id : Z)
| items_insert (values : ItemCreate)
| items_update (id : Z) (values : ItemCreate)
| items_delete (id : Z)
| orders_insert (values : OrderCreate) (order_date : datetime) (status : string)
| orders_delete (id : Z)
| text (sql : string).

(** The keyword arguments of [values], unpacked from [user.dict()]: each
    field of the request body goes to the column of the same name. *)
Definition User_values (v : UserCreate) : User.row :=
  {| User.first_name := first_name v; User.last_name := last_name v;
     User.email := email v; User.password := password v |}.

(** A real number as the store keeps it.  The store writes a real number
    that is a whole number as an integer and reads it back as a real number:
    the value is the same, but a zero comes back without its sign. *)
Definition store_real (x : spec_float) : spec_float :=
  match x with
  | S754_zero _ => S754_zero false
  | _ => x
  end.

(** A price is taken to be a number: a NaN, which the store would keep as
    NULL, is outside the model. *)
Definition Item_values (v : ItemCreate) : Item.row :=
  {| Item.name := name v; Item.description := description v;
     Item.price := store_real (price v) |}.

Definition Order_values (v : OrderCreate) (d : datetime) (s : string) : Order.row :=
  {| Order.user_id := user_id v; Order.item_id := item_id v;
     Order.order_date := d; Order.status := s |}.

(** *** Row identifiers *)

Definition max_rowid {A} (t : gmap Z A) : option Z :=
  match (map_to_list t).*1 with
  | [] => None
  | k :: ks => Some (foldr Z.max k ks)
  end.

Definition next_rowid {A} (t : gmap Z A) : Z :=
  match max_rowid t with
  | None => 1
  | Some m => m + 1
  end.

(** An integer that is bound to a statement has to fit the 64-bit integers
    of the store. *)
Definition fits_int64 (n : Z) : bool := (- 2 ^ 63 <=? n) && (n <? 2 ^ 63).

Definition overflow : Exn :=
  OverflowError "Python int too large to convert to SQLite INTEGER".

Definition database_full : Exn := OperationalError "database or disk is full".

(** The insert of a row.  When the next identifier would leave the 64-bit
    range the store looks for a free one at random; that search is not
    modelled and the insert is taken to fail. *)
Definition insert_row {A} (r : A) (t : gmap Z A) : Result (Z * gmap Z A) :=
  let id := next_rowid t in
  if fits_int64 id then Ok (id, <[id := r]> t) else Raise database_full.

(** The integers a statement binds. *)
Definition Select_params (q : Select) : list Z :=
  match q with
  | users_select id | items_select id | orders_select id => [id]
  end.

Definition Statement_params (q : Statement) : list Z :=
  match q with
  | users_insert _ | items_insert _ | text _ => []
  | users_update id _ | users_delete id => [id]
  | items_update id _ | items_delete id => [id]
  | orders_insert v _ _ => [user_id v; item_id v]
  | orders_delete id => [id]
  end.

(** *** The unique index on [users.email] *)

(** Some row other than [self] already holds [e]. *)
Definition email_taken (t : gmap Z User.row) (self : option Z) (e : string) : bool :=
  existsb (fun kr : Z * User.row =>
             bool_decide (User.email kr.2 = e) && negb (bool_decide (Some kr.1 = self)))
          (map_to_list t).

(** Writing [e] into the row [id] would give two rows the same address. *)
Definition email_conflict (t : gmap Z User.row) (id : Z) (e : string) : bool :=
  match t !! id with
  | Some _ => email_taken t (Some id) e
  | None => false
  end.

Definition users_email_unique : Exn :=
  IntegrityError "UNIQUE constraint failed: users.email".

(** *** Statements given as text

    The part of the store's SQL that the text built by [update_order] can
    reach when the status is an ordinary word: one
    [UPDATE orders SET status='...'], with or without a [WHERE id=...], with
    or without a closing semicolon.  Literals are quoted with ['] and a
    doubled quote inside a literal stands for one quote; [--] starts a comment
    that runs to the end of the line; key words and names are compared
    without regard to case.  Any other text is refused with an
    [OperationalError].  A colon followed by a name, which [text] reads as a
    bound parameter, is outside this part. *)

Inductive token :=
| TWord (s : string)
| TString (s : string)
| TSym (a : ascii).

Inductive lex_state :=
| LDefault
| LWord (acc : string)
| LLiteral (acc : string)
| LQuote (acc : string)
| LDash
| LComment.

Definition is_quote (c : ascii) : bool := bool_decide (c = "'"%char).

Definition is_space (c : ascii) : bool :=
  let n := nat_of_ascii c in
  bool_decide (n = 32%nat) || bool_decide (n = 9%nat) || bool_decide (n = 10%nat)
  || bool_decide (n = 12%nat) || bool_decide (n = 13%nat).

Definition is_newline (c : ascii) : bool := bool_decide (nat_of_ascii c = 10%nat).

Definition is_word_char (c : ascii) : bool :=
  let n := nat_of_ascii c in
  ((48 <=? n) && (n <=? 57) || (65 <=? n) && (n <=? 90)
   || (97 <=? n) && (n <=? 122) || (n =? 95))%nat.

Definition snoc (acc : string) (c : ascii) : string := acc ++ String c "".

(** What a character does when no token is under way. *)
Definition lex_start (c : ascii) : list token * lex_state :=
  if is_quote c then ([], LLiteral "")
  else if is_word_char c then ([], LWord (String c ""))
  else if is_space c then ([], LDefault)
  else if bool_decide (c = "-"%char) then ([], LDash)
  else ([TSym c], LDefault).

Definition lex_step (st : lex_state) (c : ascii) : list token * lex_state :=
  match st with
  | LDefault => lex_start c
  | LWord acc =>
      if is_word_char c then ([], LWord (snoc acc c))
      else let '(ts, st') := lex_start c in (TWord acc :: ts, st')
  | LLiteral acc =>
      if is_quote c then ([], LQuote acc) else ([], LLiteral (snoc acc c))
  | LQuote acc =>
      if is_quote c then ([], LLiteral (snoc acc c))
      else let '(ts, st') := lex_start c in (TString acc :: ts, st')
  | LDash =>
      if bool_decide (c = "-"%char) then ([], LComment)
      else let '(ts, st') := lex_start c in (TSym "-"%char :: ts, st')
  | LComment =>
      if is_newline c then ([], LDefault) else ([], LComment)
  end.

(** The end of the text: a literal still open is an error. *)
Definition lex_end (st : lex_state) : option (list token) :=
  match st with
  | LDefault | LComment => Some []
  | LWord acc => Some [TWord acc]
  | LLiteral _ => None
  | LQuote acc => Some [TString acc]
  | LDash => Some [TSym "-"%char]
  end.

Fixpoint lex (st : lex_state) (s : string) : option (list token) :=
  match s with
  | EmptyString => lex_end st
  | String c rest =>
      let '(ts, st') := lex_step st c in (ts ++.) <$> lex st' rest
  end.

(** The tokens and the state after a part of the text. *)
Fixpoint lex_run (st : lex_state) (s : string) : list token * lex_state :=
  match s with
  | EmptyString => ([], st)
  | String c rest =>
      let '(ts, st') := lex_step st c in
      let '(ts', st'') := lex_run st' rest in
      ((ts ++ ts')%list, st'')
  end.

Fixpoint string_forall (p : ascii → bool) (s : string) : bool :=
  match s with
  | EmptyString => true
  | String c rest => p c && string_forall p rest
  end.

Definition lower (c : ascii) : ascii :=
  let n := nat_of_ascii c in
  if ((65 <=? n) && (n <=? 90))%nat then ascii_of_nat (n + 32) else c.

Fixpoint lowercase (s : string) : string :=
  match s with
  | EmptyString => EmptyString
  | String c rest => String (lower c) (lowercase rest)
  end.

Definition is_kw (w : string) (kw : string) : bool :=
  bool_decide (lowercase w = kw).

Definition is_digit (c : ascii) : bool :=
  let n := nat_of_ascii c in ((48 <=? n) && (n <=? 57))%nat.

Definition all_digits (s : string) : bool := string_forall is_digit s.

Definition number (w : string) : option Z :=
  if all_digits w then Z.of_uint <$> NilEmpty.uint_of_string w else None.

Inductive SqlStatement :=
| UpdateOrdersStatus (status : string) (where_id : option Z).

Definition is_sym (c : ascii) (t : token) : bool :=
  match t with
  | TSym a => bool_decide (a = c)
  | _ => false
  end.

Fixpoint drop_semicolon (ts : list token) : list token :=
  match ts with
  | [] => []
  | [t] => if is_sym ";" t then [] else [t]
  | t :: ts' => t :: drop_semicolon ts'
  end.

Definition parse_where (ts : list token) : option (option Z) :=
  match ts with
  | [] => Some None
  | [TWord wh; TWord col; eq; TWord n] =>
      if is_kw wh "where" && is_kw col "id" && is_sym "=" eq
      then Some <$> number n else None
  | [TWord wh; TWord col; eq; minus; TWord n] =>
      if is_kw wh "where" && is_kw col "id" && is_sym "=" eq && is_sym "-" minus
      then (fun k => Some (- k)) <$> number n else None
  | _ => None
  end.

Definition parse (ts : list token) : option SqlStatement :=
  match ts with
  | TWord u :: TWord t :: TWord s :: TWord col :: eq :: TString lit :: rest =>
      if is_kw u "update" && is_kw t "orders" && is_kw s "set"
         && is_kw col "status" && is_sym "=" eq
      then UpdateOrdersStatus lit <$> parse_where (drop_semicolon rest)
      else None
  | _ => None
  end.

Definition parse_sql (sql : string) : option SqlStatement :=
  lex LDefault sql ≫= parse.
Arguments parse_sql : simpl never.

(** *** [database.execute] and [database.fetch_one] *)

(** One call of the driver: it raises the fault that awaits it, if any, and
    runs its statement otherwise. *)
Definition driver_call {A} (run : M A) : M A :=
  fun w =>
    match faults w with
    | Some e :: l => (Raise e, set_faults l w)
    | None :: l => run (set_faults l w)
    | [] => run w
    end.

(** The number of rows an update or a delete that names one [id] touches. *)
Definition rowcount {A} (t : gmap Z A) (id : Z) : Z :=
  match t !! id with
  | Some _ => 1
  | None => 0
  end.

(** A statement given as text: the store parses it and runs what it finds;
    without a [WHERE] the update reaches every row. *)
Definition run_text (sql : string) : M Z :=
  fun w =>
    match parse_sql sql with
    | Some (UpdateOrdersStatus s (Some id)) =>
        (Ok (rowcount (orders w) id),
         set_orders (alter (Order.set_status s) id) w)
    | Some (UpdateOrdersStatus s None) =>
        (Ok (Z.of_nat (size (orders w))),
         set_orders (fmap (Order.set_status s)) w)
    | None => (Raise (OperationalError sql), w)
    end.
Arguments run_text : simpl never.

(** The statement itself.  An insert yields the identifier of the new row;
    the one exception of the driver, which yields the number of rows when
    that identifier is 0, is outside the model, and what is stated of the
    identifier an insert returns is stated of tables whose next identifier
    is not 0.  What the driver yields for an update or a delete is read by
    no handler; the number of rows touched stands for it. *)
Definition run_statement (q : Statement) : M Z :=
  fun w =>
    match q with
    | users_insert v =>
        if email_taken (users w) None (email v)
        then (Raise users_email_unique, w)
        else match insert_row (User_values v) (users w) with
             | Ok (id, t) => (Ok id, set_users (fun _ => t) w)
             | Raise e => (Raise e, w)
             end
    | users_update id v =>
        if email_conflict (users w) id (email v)
        then (Raise users_email_unique, w)
        else (Ok (rowcount (users w) id),
              set_users (alter (fun _ => User_values v) id) w)
    | users_delete id => (Ok (rowcount (users w) id), set_users (delete id) w)
    | items_insert v =>
        match insert_row (Item_values v) (items w) with
        | Ok (id, t) => (Ok id, set_items (fun _ => t) w)
        | Raise e => (Raise e, w)
        end
    | items_update id v =>
        (Ok (rowcount (items w) id),
         set_items (alter (fun _ => Item_values v) id) w)
    | items_delete id => (Ok (rowcount (items w) id), set_items (delete id) w)
    | orders_insert v d s =>
        match insert_row (Order_values v d s) (orders w) with
        | Ok (id, t) => (Ok id, set_orders (fun _ => t) w)
        | Raise e => (Raise e, w)
        end
    | orders_delete id => (Ok (rowcount (orders w) id), set_orders (delete id) w)
    | text sql => run_text sql w
    end.

Definition run_select (q : Select) : M (option Dict) :=
  fun w =>
    match q with
    | users_select id => (Ok (User.to_dict id <$> users w !! id), w)
    | items_select id => (Ok (Item.to_dict id <$> items w !! id), w)
    | orders_select id => (Ok (Order.to_dict id <$> orders w !! id), w)
    end.

(** The driver binds the integers of the statement before it runs it. *)
Definition bind_params {A} (params : list Z) (run : M A) : M A :=
  if forallb fits_int64 params then run else raise overflow.

Definition execute (q : Statement) : M Z :=
  driver_call (bind_params (Statement_params q) (run_statement q)).

Definition fetch_one (q : Select) : M (option Dict) :=
  driver_call (bind_params (Select_params q) (run_select q)).

(** ** The handlers *)

(** [str(n)] for an [int], as an f-string renders it. *)
Definition int_str (n : Z) : string := NilZero.string_of_int (Z.to_int n).

(** The exception of the not-found branches. *)
Definition not_found (what : string) : Exn :=
  HTTPException 404 (Literal (what ++ " not found")).

Definition create_user (user : UserCreate) : M Dict :=
  try
    (user_id <- execute (users_insert user) ;;
     ret (<["id" := VInt user_id]> (UserCreate_dict user)))
  except e => raise (HTTPException 500 (StrOf e)).

Definition read_user (user_id : Z) : M Dict :=
  try
    (user <- fetch_one (users_select user_id) ;;
     match user with
     | Some user => ret user
     | None => raise (HTTPException 404 (Literal "User not found"))
     end)
  except e =>
    (print (FString "Exception in read_user: " e) ;;
     raise (HTTPException 500 (Literal "Internal Server Error"))).

Definition update_user (user_id : Z) (user : UserCreate) : M Dict :=
  try
    (execute (users_update user_id user) ;;
     ret (<["id" := VInt user_id]> (UserCreate_dict user)))
  except e => raise (HTTPException 500 (StrOf e)).

Definition message (s : string) : Dict := {["message" := VStr s]}.

(** A dictionary display that unpacks [d'] after the entries of [d]: the
    entries of [d'] win. *)
Definition dict_update (d d' : Dict) : Dict := d' ∪ d.

Definition delete_user (user_id : Z) : M Dict :=
  try
    (execute (users_delete user_id) ;;
     ret (message "User deleted"))
  except e => raise (HTTPException 500 (StrOf e)).

Definition create_item (item : ItemCreate) : M Dict :=
  try
    (item_id <- execute (items_insert item) ;;
     ret (<["id" := VInt item_id]> (ItemCreate_dict item)))
  except e => raise (HTTPException 500 (StrOf e)).

Definition read_item (item_id : Z) : M Dict :=
  try
    (item <- fetch_one (items_select item_id) ;;
     match item with
     | Some item => ret item
     | None => raise (HTTPException 404 (Literal "Item not found"))
     end)
  except e => raise (HTTPException 500 (StrOf e)).

Definition update_item (item_id : Z) (item : ItemCreate) : M Dict :=
  try
    (execute (items_update item_id item) ;;
     ret (<["id" := VInt item_id]> (ItemCreate_dict item)))
  except e => raise (HTTPException 500 (StrOf e)).

Definition delete_item (item_id : Z) : M Dict :=
  try
    (existing_item <- fetch_one (items_select item_id) ;;
     match existing_item with
     | None => raise (HTTPException 404 (Literal "Item not found"))
     | Some _ =>
         execute (items_delete item_id) ;;
         ret (message "Item deleted successfully")
     end)
  except e => raise (HTTPException 500 (StrOf e)).

Definition create_order (order : OrderCreate) : M Dict :=
  try
    (stored_date <- utcnow ;;
     order_id <- execute (orders_insert order stored_date "pending") ;;
     returned_date <- utcnow ;;
     ret (<["status" := VStr "pending"]>
          (<["order_date" := VDateTime returned_date]>
           (dict_update {["id" := VInt order_id]} (OrderCreate_dict order)))))
  except e => raise (HTTPException 500 (StrOf e)).

Definition read_order (order_id : Z) : M Dict :=
  try
    (order <- fetch_one (orders_select order_id) ;;
     match order with
     | Some order => ret order
     | None => raise (HTTPException 404 (Literal "Order not found"))
     end)
  except e => raise (HTTPException 500 (StrOf e)).

Definition update_order (order_id : Z) (status : string) : M Dict :=
  try
    (existing_order <- fetch_one (orders_select order_id) ;;
     match existing_order with
     | None => raise (HTTPException 404 (Literal "Order not found"))
     | Some existing_order =>
         execute (text ("UPDATE orders SET status='" ++ status
                        ++ "' WHERE id=" ++ int_str order_id)) ;;
         ret (<["status" := VStr status]> existing_order)
     end)
  except e => raise (HTTPException 500 (StrOf e)).

Definition delete_order (order_id : Z) : M Dict :=
  try
    (existing_order <- fetch_one (orders_select order_id) ;;
     match existing_order with
     | None => raise (HTTPException 404 (Literal "Order not found"))
     | Some _ =>
         execute (orders_delete order_id) ;;
         ret (message "Order deleted successfully")
     end)
  except e => raise (HTTPException 500 (StrOf e)).

(** ** The routes

    A route is a handler under its decorator.  A [response_model] that is a
    pydantic model keeps, of the dictionary the handler returns, the declared
    fields and nothing else; [None], [dict] and [Dict[str, ...]] keep every
    entry.  The result is rendered as JSON, which has no infinity and no NaN.
    An [HTTPException] becomes a response with its status code and its
    detail.  Every value a handler puts under a declared field has the
    declared type, or one of the types the model of [read_user] lists, and is
    taken to pass validation as it is. *)

Inductive Body :=
| JSON (d : Dict)
| Detail (m : Msg).

Record Response := {
  status_code : Z;
  body : Body }.

Fixpoint model_validate (fields : list string) (d : Dict) : option Dict :=
  match fields with
  | [] => Some ∅
  | f :: fs =>
      match d !! f, model_validate fs d with
      | Some v, Some r => Some (<[f := v]> r)
      | _, _ => None
      end
  end.

Definition internal_server_error : Response :=
  {| status_code := 500; body := Detail (Literal "Internal Server Error") |}.

Definition finite (x : spec_float) : bool :=
  match x with
  | S754_zero _ | S754_finite _ _ _ => true
  | S754_infinity _ | S754_nan => false
  end.

Definition json_value (v : Value) : bool :=
  match v with
  | VFloat x => finite x
  | _ => true
  end.

(** [JSONResponse.render]: the dictionary goes out with status 200 when every
    value can be written as JSON. *)
Definition render (d : Dict) : Response :=
  if bool_decide (map_Forall (fun _ v => json_value v = true) d)
  then {| status_code := 200; body := JSON d |}
  else internal_server_error.

Definition route (response_model : option (list string)) (handler : M Dict)
  : World → Response * World :=
  fun w =>
    match handler w with
    | (Ok d, w') =>
        match response_model with
        | None => (render d, w')
        | Some fields =>
            match model_validate fields d with
            | Some d' => (render d', w')
            | None => (internal_server_error, w')
            end
        end
    | (Raise (HTTPException sc m), w') => ({| status_code := sc; body := Detail m |}, w')
    | (Raise _, w') => (internal_server_error, w')
    end.

Definition POST_users (user : UserCreate) := route None (create_user user).
Definition GET_users (user_id : Z) := route None (read_user user_id).
Definition PUT_users (user_id : Z) (user : UserCreate) :=
  route (Some UserCreate_fields) (update_user user_id user).
Definition DELETE_users (user_id : Z) := route None (delete_user user_id).

Definition POST_items (item : ItemCreate) :=
  route (Some ItemRead_fields) (create_item item).
Definition GET_items (item_id : Z) :=
  route (Some ItemRead_fields) (read_item item_id).
Definition PUT_items (item_id : Z) (item : ItemCreate) :=
  route (Some ItemRead_fields) (update_item item_id item).
Definition DELETE_items (item_id : Z) := route None (delete_item item_id).

Definition POST_orders (order : OrderCreate) :=
  route (Some OrderResponse_fields) (create_order order).
Definition GET_orders (order_id : Z) :=
  route (Some OrderRead_fields) (read_order order_id).
(** The query parameter [status] is optional and stands for ["pending"] when
    the request leaves it out. *)
Definition PUT_orders (order_id : Z) (status : option string) :=
  route (Some OrderResponse_fields) (update_order order_id (default "pending" status)).
Definition DELETE_orders (order_id : Z) := route None (delete_order order_id).

(** ** Sample worlds *)

Definition utc (n : nat) : datetime := 1700000000000000 + 1000 * Z.of_nat n.

Definition empty_world : World :=
  {| users := ∅; items := ∅; orders := ∅;
     clock := utc; ticks := 0; faults := []; stdout := [] |}.

Definition alice : UserCreate :=
  {| first_name := "Alice"; last_name := "Liddell";
     email := "alice@example.org"; password := "hunter2" |}.

Definition widget : ItemCreate :=
  {| name := "Widget"; description := "A widget";
     price := S754_finite false 5623870034678907 (-49) |}.

Definition lost_connection : Exn := DriverError "database is locked".

Definition an_order : OrderCreate := {| user_id := 1; item_id := 1 |}.

(** Two orders as [create_order] leaves them. *)
Definition two_orders : World :=
  {| users := ∅; items := ∅;
     orders := <[1 := Order_values an_order (utc 0) "pending"]>
               (<[2 := Order_values an_order (utc 2) "pending"]> ∅);
     clock := utc; ticks := 4; faults := []; stdout := [] |}.

(** The eleven handlers whose [except] clause reports [str(e)]: all but
    [read_user]. *)
Definition handlers_reporting_str
    (user : UserCreate) (item : ItemCreate) (order : OrderCreate)
    (id : Z) (status : string) : list (M Dict) :=
  [ create_user user; update_user id user; delete_user id;
    create_item item; read_item id; update_item id item; delete_item id;
    create_order order; read_order id; update_order id status; delete_order id ].

(** Those of them whose first statement binds the identifier of the path. *)
Definition handlers_binding_id
    (user : UserCreate) (item : ItemCreate) (id : Z) (status : string)
  : list (M Dict) :=
  [ update_user id user; delete_user id;
    read_item id; update_item id item; delete_item id;
    read_order id; update_order id status; delete_order id ].

(** What [create_order] returns and what it stores, given the identifier
    and the two readings of the clock. *)
Definition order_response (order : OrderCreate) (id : Z) (d : datetime) : Dict :=
  <["status" := VStr "pending"]>
  (<["order_date" := VDateTime d]>
  (dict_update {["id" := VInt id]} (OrderCreate_dict order))).

Definition after_create_order (order : OrderCreate) (w : World) : World :=
  set_ticks (S (S (ticks w)))
    (set_orders <[next_rowid (orders w)
                  := Order_values order (clock w (ticks w)) "pending"]> w).

(** The conditions under which the store takes a new order: the two
    identifiers it names and the one it gets fit the store's integers. *)
Definition order_fits (w : World) (order : OrderCreate) : Prop :=
  fits_int64 (user_id order) = true
  ∧ fits_int64 (item_id order) = true
  ∧ fits_int64 (next_rowid (orders w)) = true.

(** The statement text of [update_order]. *)
Definition update_sql (status : string) (order_id : Z) : string :=
  "UPDATE orders SET status='" ++ status ++ "' WHERE id=" ++ int_str order_id.

Definition no_quote (s : string) : bool :=
  string_forall (fun c => negb (is_quote c)) s.

(** Letters, digits, the underscore and the space. *)
Definition plain (s : string) : bool :=
  string_forall (fun c => is_word_char c || bool_decide (c = " "%char)) s.

(** ** The handlers by entity, the routes, and more sample worlds *)

Definition user_handlers (user : UserCreate) (id : Z) : list (M Dict) :=
  [ create_user user; read_user id; update_user id user; delete_user id ].

Definition item_handlers (item : ItemCreate) (id : Z) : list (M Dict) :=
  [ create_item item; read_item id; update_item id item; delete_item id ].

Definition order_handlers (order : OrderCreate) (id : Z) (status : string)
  : list (M Dict) :=
  [ create_order order; read_order id; update_order id status; delete_order id ].

Definition read_handlers (id : Z) : list (M Dict) :=
  [ read_user id; read_item id; read_order id ].

(** The twelve routes of the application. *)
Definition routes (user : UserCreate) (item : ItemCreate) (order : OrderCreate)
    (id : Z) (status : option string) : list (World → Response * World) :=
  [ POST_users user; GET_users id; PUT_users id user; DELETE_users id;
    POST_items item; GET_items id; PUT_items id item; DELETE_items id;
    POST_orders order; GET_orders id; PUT_orders id status; DELETE_orders id ].

(** A computation that leaves a part [f] of the world as it was, whatever
    its outcome. *)
Definition keeps {A X} (f : World → X) (h : M A) : Prop :=
  ∀ w, f (h w).2 = f w.

Definition bob : UserCreate :=
  {| first_name := "Bob"; last_name := "Cratchit";
     email := "bob@example.org"; password := "tinytim" |}.

Definition gadget : ItemCreate :=
  {| name := "Gadget"; description := "A gadget";
     price := S754_finite false 5 (-1) |}.

(** One user, one item and one order that names them. *)
Definition small_shop : World :=
  {| users := {[1 := User_values alice]};
     items := {[1 := Item_values widget]};
     orders := {[1 := Order_values an_order (utc 0) "pending"]};
     clock := utc; ticks := 2; faults := []; stdout := [] |}.

(** No two users have the same e-mail address. *)
Definition emails_unique (t : gmap Z User.row) : Prop :=
  ∀ k k' r r', t !! k = Some r → t !! k' = Some r' →
               User.email r = User.email r' → k = k'.

(** All twelve handlers. *)
Definition all_handlers (user : UserCreate) (item : ItemCreate)
    (order : OrderCreate) (id : Z) (status : string) : list (M Dict) :=
  user_handlers user id ++ item_handlers item id
  ++ order_handlers order id status.

(** Two users. *)
Definition two_users : World :=
  {| users := <[1 := User_values alice]> {[2 := User_values bob]};
     items := ∅; orders := ∅;
     clock := utc; ticks := 0; faults := []; stdout := [] |}.

(** The table a statement writes to.  A statement given as text is an
    update of [orders]. *)
Inductive Table := Users | Items | Orders.

Definition statement_table (q : Statement) : Table :=
  match q with
  | users_insert _ | users_update _ _ | users_delete _ => Users
  | items_insert _ | items_update _ _ | items_delete _ => Items
  | orders_insert _ _ _ | orders_delete _ | text _ => Orders
  end.

(** ** Proof tools *)

Ltac handler_unfold :=
  unfold create_user, read_user, update_user, delete_user,
         create_item, read_item, update_item, delete_item,
         create_order, read_order, update_order, delete_order,
         try_except, bind, ret, raise, print, utcnow.

(** Reduction of the store and of the world only: the dictionaries and the
    statement text stay as they are written. *)
Ltac step :=
  cbn [run_select run_statement fmap option_fmap option_map fst snd
       faults users items orders clock ticks stdout
       set_users set_items set_orders set_ticks set_faults set_stdout].

(** * Properties *)

(** ** The store *)

Lemma foldr_max_ge (k : Z) (ks : list Z) :
  k ≤ foldr Z.max k ks ∧ ∀ j, j ∈ ks → j ≤ foldr Z.max k ks.
Proof.
  induction ks as [|a ks [IHk IHks]]; simpl.
  - split; [lia|]. intros j Hj. by apply elem_of_nil in Hj.
  - split; [lia|]. intros j Hj. apply elem_of_cons in Hj as [->|Hj]; [lia|].
    specialize (IHks j Hj). lia.
Qed.

Lemma max_rowid_ge {A} (t : gmap Z A) (k : Z) :
  is_Some (t !! k) → ∃ m, max_rowid t = Some m ∧ k ≤ m.
Proof.
  intros [x Hx]. unfold max_rowid.
  assert (Hin : k ∈ (map_to_list t).*1).
  { apply list_elem_of_fmap. exists (k, x). split; [done|].
    by apply elem_of_map_to_list. }
  destruct ((map_to_list t).*1) as [|k0 ks].
  - by apply elem_of_nil in Hin.
  - eexists. split; [done|].
    destruct (foldr_max_ge k0 ks) as [H0 Hks].
    apply elem_of_cons in Hin as [->|Hin]; [done|by apply Hks].
Qed.

(** The identifier an insert assigns is not in use. *)
Lemma next_rowid_fresh {A} (t : gmap Z A) : t !! next_rowid t = None.
Proof.
  destruct (t !! next_rowid t) as [x|] eqn:Hx; [|done].
  destruct (max_rowid_ge t (next_rowid t)) as (m & Hm & Hle); [by eexists|].
  unfold next_rowid in Hle. rewrite Hm in Hle. lia.
Qed.

Lemma next_rowid_empty {A} : next_rowid (∅ : gmap Z A) = 1.
Proof. unfold next_rowid, max_rowid. by rewrite map_to_list_empty. Qed.

(** An insert leaves the rows that were there as they were. *)
Lemma insert_row_old {A} (r : A) (t t' : gmap Z A) (id k : Z) :
  insert_row r t = Ok (id, t') → is_Some (t !! k) → t' !! k = t !! k.
Proof.
  unfold insert_row. destruct (fits_int64 (next_rowid t)); [|done].
  intros [= <- <-] [x Hx]. apply lookup_insert_ne. intros Heq.
  rewrite <- Heq, next_rowid_fresh in Hx. done.
Qed.

Lemma insert_row_room {A} (r : A) (t : gmap Z A) :
  fits_int64 (next_rowid t) = true →
  insert_row r t = Ok (next_rowid t, <[next_rowid t := r]> t).
Proof. intros H. unfold insert_row. by rewrite H. Qed.

Lemma driver_call_calm {A} (run : M A) (w : World) :
  faults w = [] → driver_call run w = run w.
Proof. intros H. unfold driver_call. by rewrite H. Qed.

Lemma driver_call_fault {A} (run : M A) (w : World) (e : Exn) l :
  faults w = Some e :: l → driver_call run w = (Raise e, set_faults l w).
Proof. intros H. unfold driver_call. by rewrite H. Qed.

Lemma fetch_one_fault (q : Select) (w : World) (e : Exn) l :
  faults w = Some e :: l → fetch_one q w = (Raise e, set_faults l w).
Proof. apply driver_call_fault. Qed.

Lemma execute_fault (q : Statement) (w : World) (e : Exn) l :
  faults w = Some e :: l → execute q w = (Raise e, set_faults l w).
Proof. apply driver_call_fault. Qed.

Lemma fetch_one_calm (q : Select) (w : World) :
  faults w = [] → forallb fits_int64 (Select_params q) = true →
  fetch_one q w = run_select q w.
Proof.
  intros Hf Hp. unfold fetch_one, bind_params. rewrite Hp.
  by apply driver_call_calm.
Qed.

Lemma execute_calm (q : Statement) (w : World) :
  faults w = [] → forallb fits_int64 (Statement_params q) = true →
  execute q w = run_statement q w.
Proof.
  intros Hf Hp. unfold execute, bind_params. rewrite Hp.
  by apply driver_call_calm.
Qed.

(** An integer too large for the store stops the call before the statement
    runs. *)
Lemma fetch_one_overflow (q : Select) (w : World) :
  faults w = [] → forallb fits_int64 (Select_params q) = false →
  fetch_one q w = (Raise overflow, w).
Proof.
  intros Hf Hp. unfold fetch_one, bind_params. rewrite Hp.
  by rewrite driver_call_calm.
Qed.

Lemma execute_overflow (q : Statement) (w : World) :
  faults w = [] → forallb fits_int64 (Statement_params q) = false →
  execute q w = (Raise overflow, w).
Proof.
  intros Hf Hp. unfold execute, bind_params. rewrite Hp.
  by rewrite driver_call_calm.
Qed.

(** A select leaves the world as it is. *)
Lemma run_select_world (q : Select) (w : World) : (run_select q w).2 = w.
Proof. by destruct q. Qed.

Lemma to_dict_password (id : Z) (r : User.row) :
  User.to_dict id r !! "password" = Some (VStr (User.password r)).
Proof. reflexivity. Qed.

(** ** The routes *)

(** A route answers with the status code of the [HTTPException] its handler
    raises. *)
Lemma route_raise model (h : M Dict) (w w' : World) sc m :
  h w = (Raise (HTTPException sc m), w') →
  route model h w = ({| status_code := sc; body := Detail m |}, w').
Proof. intros H. unfold route. by rewrite H. Qed.

Lemma render_ok (d : Dict) :
  map_Forall (fun _ v => json_value v = true) d →
  render d = {| status_code := 200; body := JSON d |}.
Proof. intros H. unfold render. by rewrite bool_decide_eq_true_2. Qed.

(** ** Reading, updating and deleting a row that is not there *)

(** The side conditions of the calls: the integers fit. *)
Ltac fits :=
  cbn [forallb Select_params Statement_params andb];
  repeat match goal with
         | H : fits_int64 _ = true |- _ => rewrite H
         end;
  done.

Ltac calm :=
  step;
  repeat (first [ rewrite fetch_one_calm by (done || fits)
                | rewrite execute_calm by (done || fits) ]; step).

Lemma read_user_missing (w : World) (id : Z) :
  faults w = [] → fits_int64 id = true → users w !! id = None →
  read_user id w =
    (Raise (HTTPException 500 (Literal "Internal Server Error")),
     set_stdout (FString "Exception in read_user: " (not_found "User") :: stdout w) w).
Proof. intros Hf Hi Hid. handler_unfold. calm. by rewrite Hid. Qed.

Lemma read_item_missing (w : World) (id : Z) :
  faults w = [] → fits_int64 id = true → items w !! id = None →
  read_item id w = (Raise (HTTPException 500 (StrOf (not_found "Item"))), w).
Proof. intros Hf Hi Hid. handler_unfold. calm. by rewrite Hid. Qed.

Lemma read_order_missing (w : World) (id : Z) :
  faults w = [] → fits_int64 id = true → orders w !! id = None →
  read_order id w = (Raise (HTTPException 500 (StrOf (not_found "Order"))), w).
Proof. intros Hf Hi Hid. handler_unfold. calm. by rewrite Hid. Qed.

Lemma update_order_missing (w : World) (id : Z) (status : string) :
  faults w = [] → fits_int64 id = true → orders w !! id = None →
  update_order id status w = (Raise (HTTPException 500 (StrOf (not_found "Order"))), w).
Proof. intros Hf Hi Hid. handler_unfold. calm. by rewrite Hid. Qed.

Lemma delete_item_missing (w : World) (id : Z) :
  faults w = [] → fits_int64 id = true → items w !! id = None →
  delete_item id w = (Raise (HTTPException 500 (StrOf (not_found "Item"))), w).
Proof. intros Hf Hi Hid. handler_unfold. calm. by rewrite Hid. Qed.

Lemma delete_order_missing (w : World) (id : Z) :
  faults w = [] → fits_int64 id = true → orders w !! id = None →
  delete_order id w = (Raise (HTTPException 500 (StrOf (not_found "Order"))), w).
Proof. intros Hf Hi Hid. handler_unfold. calm. by rewrite Hid. Qed.

(** C1 (the code departs from the claim).  Reading an identifier that matches
    no row does not end in the not-found condition: the [HTTPException] with
    status 404 is raised inside the [try] block, the [except Exception] clause
    catches it, and the request ends with status 500, for users, items and
    orders alike. *)
Theorem read_missing_row_gives_500 (w : World) (id : Z) :
  faults w = [] → fits_int64 id = true →
  (users w !! id = None →
     (read_user id w).1 = Raise (HTTPException 500 (Literal "Internal Server Error"))
     ∧ status_code (GET_users id w).1 = 500) ∧
  (items w !! id = None →
     (read_item id w).1 = Raise (HTTPException 500 (StrOf (not_found "Item")))
     ∧ status_code (GET_items id w).1 = 500) ∧
  (orders w !! id = None →
     (read_order id w).1 = Raise (HTTPException 500 (StrOf (not_found "Order")))
     ∧ status_code (GET_orders id w).1 = 500).
Proof.
  intros Hf Hi. repeat split.
  - by rewrite read_user_missing.
  - unfold GET_users. by erewrite route_raise by by apply read_user_missing.
  - by rewrite read_item_missing.
  - unfold GET_items. by erewrite route_raise by by apply read_item_missing.
  - by rewrite read_order_missing.
  - unfold GET_orders. by erewrite route_raise by by apply read_order_missing.
Qed.

Lemma read_missing_row_gives_500_witness :
  status_code (GET_users 7 empty_world).1 = 500
  ∧ status_code (GET_items 7 empty_world).1 = 500
  ∧ status_code (GET_orders 7 empty_world).1 = 500.
Proof.
  destruct (read_missing_row_gives_500 empty_world 7 eq_refl eq_refl)
    as (Hu & Hi & Ho).
  split; [exact (proj2 (Hu eq_refl))|].
  split; [exact (proj2 (Hi eq_refl))|exact (proj2 (Ho eq_refl))].
Defined.

(** C4 (the code departs from the claim).  For an identifier that matches no
    order, [update_order] does not end in not-found: the 404 it raises is
    caught by its own [except Exception] clause and the request ends with
    status 500, nothing being written.  This holds for a given status and
    for the default one. *)
Theorem update_missing_order_gives_500 (w : World) (id : Z) (status : option string) :
  faults w = [] → fits_int64 id = true → orders w !! id = None →
  update_order id (default "pending" status) w =
    (Raise (HTTPException 500 (StrOf (not_found "Order"))), w)
  ∧ PUT_orders id status w =
    ({| status_code := 500; body := Detail (StrOf (not_found "Order")) |}, w).
Proof.
  intros Hf Hi Hid.
  pose proof (update_order_missing w id (default "pending" status) Hf Hi Hid) as H.
  split; [done|]. unfold PUT_orders. by apply route_raise.
Qed.

Lemma update_missing_order_gives_500_witness :
  status_code (PUT_orders 3 (Some "shipped") empty_world).1 = 500
  ∧ status_code (PUT_orders 3 None empty_world).1 = 500.
Proof.
  split.
  - by rewrite (proj2 (update_missing_order_gives_500 empty_world 3 (Some "shipped")
                         eq_refl eq_refl eq_refl)).
  - by rewrite (proj2 (update_missing_order_gives_500 empty_world 3 None
                         eq_refl eq_refl eq_refl)).
Defined.

(** [delete_item] on a row that is there: the row goes and the fixed
    message is returned. *)
Lemma delete_item_existing (w : World) (id : Z) (r : Item.row) :
  faults w = [] → fits_int64 id = true → items w !! id = Some r →
  delete_item id w =
    (Ok (message "Item deleted successfully"), set_items (delete id) w).
Proof. intros Hf Hi Hid. handler_unfold. calm. rewrite Hid. by calm. Qed.

(** C5 (the code departs from the claim).  [delete_item] looks the row up
    first and deletes nothing when it is not there, but the request does not
    end in not-found: the 404 raised inside the [try] block is caught by the
    [except Exception] clause and turned into status 500. *)
Theorem delete_missing_item_gives_500 (w : World) (id : Z) :
  faults w = [] → fits_int64 id = true → items w !! id = None →
  delete_item id w = (Raise (HTTPException 500 (StrOf (not_found "Item"))), w)
  ∧ DELETE_items id w =
    ({| status_code := 500; body := Detail (StrOf (not_found "Item")) |}, w).
Proof.
  intros Hf Hi Hid. pose proof (delete_item_missing w id Hf Hi Hid) as H.
  split; [done|]. unfold DELETE_items. by apply route_raise.
Qed.

Lemma delete_missing_item_gives_500_witness :
  status_code (DELETE_items 5 empty_world).1 = 500.
Proof.
  by rewrite (proj2 (delete_missing_item_gives_500 empty_world 5
                       eq_refl eq_refl eq_refl)).
Defined.

(** ** Deleting users and items *)

Lemma bind_params_orders {A} (params : list Z) (run : M A) (w : World) :
  (∀ w0, orders (run w0).2 = orders w0) →
  orders (bind_params params run w).2 = orders w.
Proof. intros Hrun. unfold bind_params. by destruct (forallb _ _). Qed.

Lemma driver_call_orders {A} (run : M A) (w : World) :
  (∀ w0, orders (run w0).2 = orders w0) →
  orders (driver_call run w).2 = orders w.
Proof.
  intros Hrun. unfold driver_call.
  destruct (faults w) as [|[e|] l]; simpl; [apply Hrun|done|].
  by rewrite Hrun.
Qed.

Lemma try_except_500_orders {A} (c : M A) (w : World) :
  orders (try_except c (fun e => raise (HTTPException 500 (StrOf e))) w).2
  = orders (c w).2.
Proof. unfold try_except, raise. by destruct (c w) as [[a|e] w']. Qed.

Lemma execute_users_delete_orders (w : World) (id : Z) :
  orders (execute (users_delete id) w).2 = orders w.
Proof.
  unfold execute. apply driver_call_orders. intros w0.
  by apply bind_params_orders.
Qed.

Lemma execute_items_delete_orders (w : World) (id : Z) :
  orders (execute (items_delete id) w).2 = orders w.
Proof.
  unfold execute. apply driver_call_orders. intros w0.
  by apply bind_params_orders.
Qed.

Lemma fetch_one_orders (q : Select) (w : World) :
  orders (fetch_one q w).2 = orders w.
Proof.
  unfold fetch_one. apply driver_call_orders. intros w0.
  apply bind_params_orders. intros w1. by rewrite run_select_world.
Qed.

Lemma delete_user_orders (w : World) (id : Z) :
  orders (delete_user id w).2 = orders w.
Proof.
  unfold delete_user. rewrite try_except_500_orders. unfold bind.
  pose proof (execute_users_delete_orders w id) as H.
  destruct (execute _ w) as [[a|e] w']; simpl in *; done.
Qed.

Lemma delete_item_orders (w : World) (id : Z) :
  orders (delete_item id w).2 = orders w.
Proof.
  unfold delete_item. rewrite try_except_500_orders. unfold bind.
  pose proof (fetch_one_orders (items_select id) w) as H.
  destruct (fetch_one _ w) as [[[d|]|e] w1]; simpl in *; try done.
  pose proof (execute_items_delete_orders w1 id) as H1.
  destruct (execute _ w1) as [[a|e] w2]; simpl in *; congruence.
Qed.

(** C7.  Whatever the state of the store and whatever becomes of the request,
    deleting a user or an item leaves the table of orders as it was, the
    orders that name the deleted row included. *)
Theorem delete_user_or_item_keeps_orders (w : World) (id : Z) :
  orders (delete_user id w).2 = orders w
  ∧ orders (delete_item id w).2 = orders w
  ∧ orders (DELETE_users id w).2 = orders w
  ∧ orders (DELETE_items id w).2 = orders w.
Proof.
  pose proof (delete_user_orders w id) as Hu.
  pose proof (delete_item_orders w id) as Hi.
  repeat split; try done.
  - unfold DELETE_users, route.
    destruct (delete_user id w) as [[d|[]] w']; simpl in *; done.
  - unfold DELETE_items, route.
    destruct (delete_item id w) as [[d|[]] w']; simpl in *; done.
Qed.

(** An order whose user is deleted is still there, still naming that user. *)
Lemma delete_user_leaves_dangling_order (w : World) (id k : Z) (r : Order.row) :
  orders w !! k = Some r → Order.user_id r = id →
  orders (delete_user id w).2 !! k = Some r.
Proof. intros Hk _. by rewrite delete_user_orders. Qed.

(** ** Users *)

Lemma User_to_dict_json (id : Z) (r : User.row) :
  map_Forall (fun _ v => json_value v = true) (User.to_dict id r).
Proof.
  unfold User.to_dict. repeat apply map_Forall_insert_2; done.
Qed.

(** C9.  For a user that is there, [read_user] returns the whole stored row
    as a dictionary: the identifier and the four stored columns, each under
    its own name and with the stored value, and nothing else.  The entry
    under ["password"] is the stored password, character for character.
    The route sends that dictionary as it is, and nothing is written. *)
Theorem read_user_returns_row_with_password (w : World) (id : Z) (r : User.row) :
  faults w = [] → fits_int64 id = true → users w !! id = Some r →
  ∃ d,
    read_user id w = (Ok d, w)
    ∧ GET_users id w = ({| status_code := 200; body := JSON d |}, w)
    ∧ d !! "id" = Some (VInt id)
    ∧ d !! "first_name" = Some (VStr (User.first_name r))
    ∧ d !! "last_name" = Some (VStr (User.last_name r))
    ∧ d !! "email" = Some (VStr (User.email r))
    ∧ d !! "password" = Some (VStr (User.password r))
    ∧ dom d = list_to_set ["id"; "first_name"; "last_name"; "email"; "password"].
Proof.
  intros Hf Hi Hid.
  assert (H : read_user id w = (Ok (User.to_dict id r), w)).
  { handler_unfold. calm. by rewrite Hid. }
  exists (User.to_dict id r).
  split; [done|]. split; [|repeat (split; [reflexivity|])].
  - unfold GET_users, route. rewrite H. by rewrite render_ok by apply User_to_dict_json.
  - unfold User.to_dict. rewrite !dom_insert_L, dom_empty_L. set_solver.
Qed.

Lemma read_user_returns_row_with_password_witness :
  ∃ d,
    read_user 1 small_shop = (Ok d, small_shop)
    ∧ GET_users 1 small_shop = ({| status_code := 200; body := JSON d |}, small_shop)
    ∧ d !! "id" = Some (VInt 1)
    ∧ d !! "first_name" = Some (VStr "Alice")
    ∧ d !! "last_name" = Some (VStr "Liddell")
    ∧ d !! "email" = Some (VStr "alice@example.org")
    ∧ d !! "password" = Some (VStr "hunter2")
    ∧ dom d = list_to_set ["id"; "first_name"; "last_name"; "email"; "password"].
Proof.
  exact (read_user_returns_row_with_password small_shop 1 (User_values alice)
           eq_refl eq_refl eq_refl).
Defined.

Lemma update_user_calm (w : World) (id : Z) (user : UserCreate) :
  faults w = [] → fits_int64 id = true →
  email_conflict (users w) id (email user) = false →
  update_user id user w =
    (Ok (<["id" := VInt id]> (UserCreate_dict user)),
     set_users (alter (fun _ => User_values user) id) w).
Proof. intros Hf Hi He. handler_unfold. calm. by rewrite He. Qed.

(** An update of a row that is not there writes nothing. *)
Lemma update_user_missing_world (w : World) (id : Z) (user : UserCreate) :
  users w !! id = None →
  set_users (alter (fun _ => User_values user) id) w = w.
Proof.
  intros Hid. destruct w as [us its os c t f out]; unfold set_users; simpl in *.
  f_equal. apply map_eq. intros k. rewrite lookup_alter.
  case_decide; [subst; by rewrite Hid|done].
Qed.

Lemma UserCreate_model_drops_id (id : Z) (user : UserCreate) :
  model_validate UserCreate_fields (<["id" := VInt id]> (UserCreate_dict user))
  = Some (UserCreate_dict user).
Proof. reflexivity. Qed.

Lemma UserCreate_dict_json (user : UserCreate) :
  map_Forall (fun _ v => json_value v = true) (UserCreate_dict user).
Proof.
  unfold UserCreate_dict. repeat apply map_Forall_insert_2; done.
Qed.

(** C6 (the code departs from the claim).  [update_user] sends its update
    without looking the row up and returns the submitted fields together
    with the identifier, whether or not a row was written.  The route,
    however, is declared with [response_model=UserCreate], a model without an
    [id] field, so the response that leaves the service carries the submitted
    fields only. *)
Theorem update_user_response_lacks_id (w : World) (id : Z) (user : UserCreate) :
  faults w = [] → fits_int64 id = true →
  email_conflict (users w) id (email user) = false →
  let w' := set_users (alter (fun _ => User_values user) id) w in
  update_user id user w = (Ok (<["id" := VInt id]> (UserCreate_dict user)), w')
  ∧ PUT_users id user w =
    ({| status_code := 200; body := JSON (UserCreate_dict user) |}, w')
  ∧ UserCreate_dict user !! "id" = None
  ∧ (users w !! id = None → w' = w).
Proof.
  intros Hf Hi He w'. pose proof (update_user_calm w id user Hf Hi He) as H.
  split; [done|]. split; [|split; [done|]].
  - unfold PUT_users, route. rewrite H, UserCreate_model_drops_id.
    by rewrite render_ok by apply UserCreate_dict_json.
  - apply update_user_missing_world.
Qed.

Lemma update_user_response_lacks_id_witness :
  PUT_users 1 alice empty_world =
    ({| status_code := 200; body := JSON (UserCreate_dict alice) |}, empty_world).
Proof.
  destruct (update_user_response_lacks_id empty_world 1 alice
              eq_refl eq_refl eq_refl) as (_ & H & _ & Hw).
  rewrite H. by rewrite (Hw eq_refl).
Defined.

(** ** Internal failures *)

(** Whatever a handler of the list raises is a 500 whose detail is the
    [str] of some exception. *)
Lemma handlers_raise_500_str user item order id status (h : M Dict) (w : World) e' :
  h ∈ handlers_reporting_str user item order id status →
  (h w).1 = Raise e' → ∃ e, e' = HTTPException 500 (StrOf e).
Proof.
  intros Hh. unfold handlers_reporting_str in Hh.
  repeat (apply elem_of_cons in Hh as [->|Hh]);
    [..|by apply elem_of_nil in Hh];
    handler_unfold;
    match goal with
    | |- context [match ?c with _ => _ end] => destruct c as [[a|e] w']
    end; cbn [fst]; intros H; try done; eexists; by inversion H.
Qed.

(** Whatever [read_user] raises is a 500 with the fixed detail. *)
Lemma read_user_raises_fixed_detail (w : World) (id : Z) e' :
  (read_user id w).1 = Raise e' →
  e' = HTTPException 500 (Literal "Internal Server Error").
Proof.
  handler_unfold.
  match goal with
  | |- context [match ?c with _ => _ end] => destruct c as [[a|e] w']
  end; cbn [fst]; intros H; [done|by inversion H].
Qed.

(** The driver failing at the second call of a handler that makes two: the
    lookup has found the row, the statement that follows fails, and nothing
    is written. *)
Lemma second_call_fault (w : World) (id : Z) (status : string) (e : Exn) l :
  faults w = None :: Some e :: l → fits_int64 id = true →
  (is_Some (items w !! id) →
     delete_item id w = (Raise (HTTPException 500 (StrOf e)), set_faults l w)) ∧
  (is_Some (orders w !! id) →
     update_order id status w = (Raise (HTTPException 500 (StrOf e)), set_faults l w)) ∧
  (is_Some (orders w !! id) →
     delete_order id w = (Raise (HTTPException 500 (StrOf e)), set_faults l w)).
Proof.
  intros Hf Hi. repeat split; intros [r Hr]; handler_unfold;
    unfold fetch_one, execute, driver_call, bind_params; rewrite Hf;
    cbn [forallb Select_params andb]; rewrite Hi; cbn [andb]; step;
    rewrite Hr; by step.
Qed.

(** An identifier that does not fit the store's integers stops the first
    call of a handler before any statement runs. *)
Lemma id_overflow user item id status (w : World) :
  faults w = [] → fits_int64 id = false →
  Forall (fun h : M Dict => h w = (Raise (HTTPException 500 (StrOf overflow)), w))
         (handlers_binding_id user item id status).
Proof.
  intros Hf Hi.
  assert (Hp : forallb fits_int64 [id] = false) by (cbn [forallb]; by rewrite Hi).
  unfold handlers_binding_id.
  repeat apply Forall_cons_2; try apply Forall_nil_2; handler_unfold; step;
    first [ rewrite fetch_one_overflow by done
          | rewrite execute_overflow by done ]; done.
Qed.

Lemma read_user_overflow (w : World) (id : Z) :
  faults w = [] → fits_int64 id = false →
  read_user id w =
    (Raise (HTTPException 500 (Literal "Internal Server Error")),
     set_stdout (FString "Exception in read_user: " overflow :: stdout w) w).
Proof.
  intros Hf Hi.
  assert (Hp : forallb fits_int64 [id] = false) by (cbn [forallb]; by rewrite Hi).
  handler_unfold. step. by rewrite fetch_one_overflow by done.
Qed.

(** An order that names a user or an item whose identifier does not fit:
    the clock has been read once, nothing is stored. *)
Lemma create_order_overflow (w : World) (order : OrderCreate) :
  faults w = [] →
  fits_int64 (user_id order) && fits_int64 (item_id order) = false →
  create_order order w =
    (Raise (HTTPException 500 (StrOf overflow)), set_ticks (S (ticks w)) w).
Proof.
  intros Hf Hi.
  assert (Hp : forallb fits_int64 [user_id order; item_id order] = false).
  { cbn [forallb]. by rewrite andb_true_r. }
  handler_unfold. step. by rewrite execute_overflow by done.
Qed.

Lemma update_user_email_taken (w : World) (id : Z) (user : UserCreate) :
  faults w = [] → fits_int64 id = true →
  email_conflict (users w) id (email user) = true →
  update_user id user w = (Raise (HTTPException 500 (StrOf users_email_unique)), w).
Proof. intros Hf Hi He. handler_unfold. calm. by rewrite He. Qed.

(** A violated constraint is an internal failure like any other. *)
Lemma create_user_email_taken (w : World) (user : UserCreate) :
  faults w = [] → email_taken (users w) None (email user) = true →
  create_user user w = (Raise (HTTPException 500 (StrOf users_email_unique)), w).
Proof. intros Hf He. handler_unfold. calm. by rewrite He. Qed.

(** ** Creating a row and reading it back *)

Lemma create_user_calm (w : World) (user : UserCreate) :
  faults w = [] → email_taken (users w) None (email user) = false →
  fits_int64 (next_rowid (users w)) = true →
  let id := next_rowid (users w) in
  create_user user w =
    (Ok (<["id" := VInt id]> (UserCreate_dict user)),
     set_users <[id := User_values user]> w).
Proof.
  intros Hf He Hid. handler_unfold. calm. rewrite He.
  by rewrite insert_row_room.
Qed.

Lemma created_user_json (id : Z) (user : UserCreate) :
  map_Forall (fun _ v => json_value v = true)
    (<["id" := VInt id]> (UserCreate_dict user)).
Proof. apply (User_to_dict_json id (User_values user)). Qed.

(** A user that was created reads back as it was submitted, with its
    identifier. *)
Lemma create_user_then_read (w : World) (user : UserCreate) :
  faults w = [] → email_taken (users w) None (email user) = false →
  fits_int64 (next_rowid (users w)) = true →
  ∃ id d w',
    create_user user w = (Ok d, w')
    ∧ d = <["id" := VInt id]> (UserCreate_dict user)
    ∧ read_user id w' = (Ok d, w')
    ∧ POST_users user w = ({| status_code := 200; body := JSON d |}, w')
    ∧ GET_users id w' = ({| status_code := 200; body := JSON d |}, w').
Proof.
  intros Hf He Hid. pose proof (create_user_calm w user Hf He Hid) as Hc.
  cbn zeta in Hc.
  eexists _, _, _. split; [exact Hc|]. split; [done|].
  assert (Hr : read_user (next_rowid (users w))
                 (set_users <[next_rowid (users w) := User_values user]> w)
               = (Ok (<["id" := VInt (next_rowid (users w))]> (UserCreate_dict user)),
                  set_users <[next_rowid (users w) := User_values user]> w)).
  { handler_unfold. calm. by rewrite lookup_insert_eq. }
  split; [done|]. split.
  - unfold POST_users, route. rewrite Hc.
    by rewrite render_ok by apply created_user_json.
  - unfold GET_users, route. rewrite Hr.
    by rewrite render_ok by apply created_user_json.
Qed.

Lemma create_item_calm (w : World) (item : ItemCreate) :
  faults w = [] → fits_int64 (next_rowid (items w)) = true →
  let id := next_rowid (items w) in
  create_item item w =
    (Ok (<["id" := VInt id]> (ItemCreate_dict item)),
     set_items <[id := Item_values item]> w).
Proof. intros Hf Hid. handler_unfold. calm. by rewrite insert_row_room. Qed.

Lemma ItemRead_model_keeps_all (id : Z) (item : ItemCreate) :
  model_validate ItemRead_fields (<["id" := VInt id]> (ItemCreate_dict item))
  = Some (<["id" := VInt id]> (ItemCreate_dict item)).
Proof. reflexivity. Qed.

Lemma created_item_json (id : Z) (item : ItemCreate) :
  finite (price item) = true →
  map_Forall (fun _ v => json_value v = true)
    (<["id" := VInt id]> (ItemCreate_dict item)).
Proof.
  intros Hp. unfold ItemCreate_dict. repeat apply map_Forall_insert_2; done.
Qed.

(** The store changes nothing of a price but the sign of a zero. *)
Lemma store_real_id (x : spec_float) : x ≠ S754_zero true → store_real x = x.
Proof. destruct x as [[]| | |]; done. Qed.

Lemma store_real_finite (x : spec_float) : finite (store_real x) = finite x.
Proof. by destruct x. Qed.

Lemma store_real_negative_zero : store_real (S754_zero true) = S754_zero false.
Proof. reflexivity. Qed.

(** The row of an item as a dictionary: the submitted fields and the
    identifier, with the price as the store keeps it. *)
Lemma Item_values_to_dict (id : Z) (item : ItemCreate) :
  Item.to_dict id (Item_values item)
  = <["price" := VFloat (store_real (price item))]>
      (<["id" := VInt id]> (ItemCreate_dict item)).
Proof. reflexivity. Qed.

Lemma Item_values_to_dict_same (id : Z) (item : ItemCreate) :
  price item ≠ S754_zero true →
  Item.to_dict id (Item_values item) = <["id" := VInt id]> (ItemCreate_dict item).
Proof.
  intros Hp. unfold Item.to_dict, Item_values, ItemCreate_dict. cbn [Item.name
    Item.description Item.price]. by rewrite store_real_id.
Qed.

Lemma Item_to_dict_model (id : Z) (r : Item.row) :
  model_validate ItemRead_fields (Item.to_dict id r) = Some (Item.to_dict id r).
Proof. reflexivity. Qed.

Lemma Item_to_dict_json (id : Z) (r : Item.row) :
  finite (Item.price r) = true →
  map_Forall (fun _ v => json_value v = true) (Item.to_dict id r).
Proof.
  intros Hp. unfold Item.to_dict. repeat apply map_Forall_insert_2; done.
Qed.

Lemma GET_items_existing (w : World) (id : Z) (r : Item.row) :
  faults w = [] → fits_int64 id = true → items w !! id = Some r →
  finite (Item.price r) = true →
  GET_items id w = ({| status_code := 200; body := JSON (Item.to_dict id r) |}, w).
Proof.
  intros Hf Hi Hid Hp. unfold GET_items, route.
  assert (Hr : read_item id w = (Ok (Item.to_dict id r), w)).
  { handler_unfold. calm. by rewrite Hid. }
  rewrite Hr, Item_to_dict_model. by rewrite render_ok by by apply Item_to_dict_json.
Qed.

(** An item with a finite price that was created reads back as it was
    submitted, with its identifier, when the price is not a negative zero
    (which reads back as zero). *)
Lemma create_item_then_read (w : World) (item : ItemCreate) :
  faults w = [] → fits_int64 (next_rowid (items w)) = true →
  finite (price item) = true → price item ≠ S754_zero true →
  ∃ id d w',
    create_item item w = (Ok d, w')
    ∧ d = <["id" := VInt id]> (ItemCreate_dict item)
    ∧ read_item id w' = (Ok d, w')
    ∧ POST_items item w = ({| status_code := 200; body := JSON d |}, w')
    ∧ GET_items id w' = ({| status_code := 200; body := JSON d |}, w').
Proof.
  intros Hf Hid Hp Hz. pose proof (create_item_calm w item Hf Hid) as Hc.
  cbn zeta in Hc.
  eexists _, _, _. split; [exact Hc|]. split; [done|].
  assert (Hr : read_item (next_rowid (items w))
                 (set_items <[next_rowid (items w) := Item_values item]> w)
               = (Ok (<["id" := VInt (next_rowid (items w))]> (ItemCreate_dict item)),
                  set_items <[next_rowid (items w) := Item_values item]> w)).
  { rewrite <- (Item_values_to_dict_same _ item Hz).
    handler_unfold. calm. by rewrite lookup_insert_eq. }
  split; [done|]. split.
  - unfold POST_items, route. rewrite Hc, ItemRead_model_keeps_all.
    by rewrite render_ok by by apply created_item_json.
  - unfold GET_items, route. rewrite Hr, ItemRead_model_keeps_all.
    by rewrite render_ok by by apply created_item_json.
Qed.

(** The scenario of the widget: created, read back, deleted, and then a
    read that ends with status 500. *)
Lemma widget_scenario :
  ∃ d w1 w2,
    POST_items widget empty_world = ({| status_code := 200; body := JSON d |}, w1)
    ∧ d = <["id" := VInt 1]> (ItemCreate_dict widget)
    ∧ GET_items 1 w1 = ({| status_code := 200; body := JSON d |}, w1)
    ∧ delete_item 1 w1 = (Ok (message "Item deleted successfully"), w2)
    ∧ GET_items 1 w2 =
        ({| status_code := 500; body := Detail (StrOf (not_found "Item")) |}, w2).
Proof.
  destruct (create_item_then_read empty_world widget eq_refl eq_refl eq_refl
              ltac:(discriminate))
    as (id & d & w1 & Hc & Hd & Hr & Hpost & Hget).
  rewrite (create_item_calm empty_world widget eq_refl eq_refl) in Hc.
  cbn zeta in Hc. change (next_rowid (items empty_world)) with 1 in Hc.
  injection Hc as Hd1 Hw1.
  assert (Hid : id = 1).
  { assert (H : d !! "id" = Some (VInt id)) by (by rewrite Hd).
    rewrite <- Hd1 in H. by injection H. }
  subst id.
  exists d, w1, (set_items (delete 1) w1).
  split; [exact Hpost|]. split; [exact Hd|]. split; [exact Hget|].
  assert (Hf1 : faults w1 = []) by (by rewrite <- Hw1).
  split.
  - apply (delete_item_existing w1 1 (Item_values widget)); [done|done|].
    rewrite <- Hw1. apply lookup_insert_eq.
  - unfold GET_items. apply route_raise. apply read_item_missing; [done|done|].
    apply lookup_delete_eq.
Qed.

Lemma create_order_calm (w : World) (order : OrderCreate) :
  faults w = [] → order_fits w order →
  create_order order w =
    (Ok (order_response order (next_rowid (orders w)) (clock w (S (ticks w)))),
     after_create_order order w).
Proof.
  intros Hf (Hu & Hi & Hid). handler_unfold. calm.
  rewrite insert_row_room by done. by calm.
Qed.

Lemma read_order_existing (w : World) (id : Z) (r : Order.row) :
  faults w = [] → fits_int64 id = true → orders w !! id = Some r →
  read_order id w = (Ok (Order.to_dict id r), w).
Proof. intros Hf Hi Hid. handler_unfold. calm. by rewrite Hid. Qed.

Lemma read_order_after_create (w : World) (order : OrderCreate) :
  faults w = [] → order_fits w order →
  read_order (next_rowid (orders w)) (after_create_order order w) =
    (Ok (order_response order (next_rowid (orders w)) (clock w (ticks w))),
     after_create_order order w).
Proof.
  intros Hf (Hu & Hi & Hid).
  rewrite (read_order_existing _ _ (Order_values order (clock w (ticks w)) "pending"));
    [done|done|done|]. simpl. apply lookup_insert_eq.
Qed.

Lemma order_response_id order id d :
  order_response order id d !! "id" = Some (VInt id).
Proof. reflexivity. Qed.

Lemma order_response_date order id d :
  order_response order id d !! "order_date" = Some (VDateTime d).
Proof. reflexivity. Qed.

Lemma OrderResponse_model_keeps_all order id d :
  model_validate OrderResponse_fields (order_response order id d)
  = Some (order_response order id d).
Proof. reflexivity. Qed.

Lemma Order_to_dict_json (id : Z) (r : Order.row) :
  map_Forall (fun _ v => json_value v = true) (Order.to_dict id r).
Proof. unfold Order.to_dict. repeat apply map_Forall_insert_2; done. Qed.

Lemma order_response_json order id d :
  map_Forall (fun _ v => json_value v = true) (order_response order id d).
Proof. apply (Order_to_dict_json id (Order_values order d "pending")). Qed.

(** C8.  [create_order] reads the clock twice: the first reading goes into
    the stored row, the second into the dictionary it returns.  The
    [order_date] of the response is therefore not the stored one, and a read
    of the same order, which returns the stored one, can differ from it.
    The order is found under the identifier of the response when that
    identifier is not 0. *)
Theorem create_order_reads_clock_twice :
  (∀ (w : World) (order : OrderCreate),
     faults w = [] → order_fits w order → next_rowid (orders w) ≠ 0 →
     ∃ id d d' w',
       create_order order w = (Ok d, w')
       ∧ d !! "id" = Some (VInt id)
       ∧ d !! "order_date" = Some (VDateTime (clock w (S (ticks w))))
       ∧ Order.order_date <$> orders w' !! id = Some (clock w (ticks w))
       ∧ read_order id w' = (Ok d', w')
       ∧ d' !! "order_date" = Some (VDateTime (clock w (ticks w))))
  ∧ (∃ (w : World) (order : OrderCreate) id d d' w',
       faults w = []
       ∧ next_rowid (orders w) ≠ 0
       ∧ create_order order w = (Ok d, w')
       ∧ d !! "id" = Some (VInt id)
       ∧ read_order id w' = (Ok d', w')
       ∧ d !! "order_date" ≠ d' !! "order_date").
Proof.
  split.
  - intros w order Hf Hfit _.
    eexists (next_rowid (orders w)), _, _, _.
    split; [by apply create_order_calm|].
    split; [apply order_response_id|].
    split; [apply order_response_date|].
    split; [simpl; by rewrite lookup_insert_eq|].
    split; [by apply read_order_after_create|].
    apply order_response_date.
  - assert (Hfit : order_fits empty_world an_order) by done.
    eexists empty_world, an_order, 1, _, _, _.
    split; [done|]. split; [done|].
    split; [by apply create_order_calm|].
    split; [reflexivity|].
    split; [exact (read_order_after_create empty_world an_order eq_refl Hfit)|].
    rewrite !order_response_date. simpl. unfold utc. intros H. by inversion H.
Qed.

Lemma create_order_reads_clock_twice_witness :
  ∃ id d d' w',
    create_order an_order empty_world = (Ok d, w')
    ∧ d !! "id" = Some (VInt id)
    ∧ d !! "order_date" = Some (VDateTime (utc 1))
    ∧ Order.order_date <$> orders w' !! id = Some (utc 0)
    ∧ read_order id w' = (Ok d', w')
    ∧ d' !! "order_date" = Some (VDateTime (utc 0)).
Proof.
  apply (proj1 create_order_reads_clock_twice empty_world an_order).
  - reflexivity.
  - repeat split; reflexivity.
  - done.
Defined.

(** C2 (the code departs from the claim).  Users and items read back as
    created ([create_user_then_read], and [create_item_then_read] up to the
    sign of a zero price).  An order
    does not: the response of [create_order] carries a second reading of the
    clock, so whenever the clock has moved between the two readings the
    created order and the order read back by the returned identifier differ
    in [order_date]. *)
Theorem create_order_then_read_differs (w : World) (order : OrderCreate) :
  faults w = [] → order_fits w order →
  clock w (ticks w) ≠ clock w (S (ticks w)) →
  ∃ id d d' w',
    create_order order w = (Ok d, w')
    ∧ d !! "id" = Some (VInt id)
    ∧ read_order id w' = (Ok d', w')
    ∧ POST_orders order w = ({| status_code := 200; body := JSON d |}, w')
    ∧ GET_orders id w' = ({| status_code := 200; body := JSON d' |}, w')
    ∧ d !! "order_date" ≠ d' !! "order_date"
    ∧ d ≠ d'.
Proof.
  intros Hf Hfit Hclock.
  pose proof (create_order_calm w order Hf Hfit) as Hc.
  pose proof (read_order_after_create w order Hf Hfit) as Hr.
  assert (Hd : order_response order (next_rowid (orders w)) (clock w (S (ticks w)))
                 !! "order_date"
               ≠ order_response order (next_rowid (orders w)) (clock w (ticks w))
                 !! "order_date").
  { rewrite !order_response_date. intros H. apply Hclock. by inversion H. }
  eexists (next_rowid (orders w)), _, _, _.
  split; [exact Hc|]. split; [apply order_response_id|].
  split; [exact Hr|]. split; [|split; [|split; [exact Hd|]]].
  - unfold POST_orders, route. rewrite Hc, OrderResponse_model_keeps_all.
    by rewrite render_ok by apply order_response_json.
  - unfold GET_orders, route. rewrite Hr.
    rewrite (OrderResponse_model_keeps_all order).
    by rewrite render_ok by apply order_response_json.
  - intros Heq. apply Hd. by rewrite Heq.
Qed.

Lemma create_order_then_read_differs_witness :
  ∃ id d d' w',
    create_order an_order empty_world = (Ok d, w')
    ∧ d !! "id" = Some (VInt id)
    ∧ read_order id w' = (Ok d', w')
    ∧ POST_orders an_order empty_world = ({| status_code := 200; body := JSON d |}, w')
    ∧ GET_orders id w' = ({| status_code := 200; body := JSON d' |}, w')
    ∧ d !! "order_date" ≠ d' !! "order_date"
    ∧ d ≠ d'.
Proof.
  apply (create_order_then_read_differs empty_world an_order).
  - reflexivity.
  - repeat split; reflexivity.
  - simpl. unfold utc. lia.
Defined.

(** ** The text of the status update *)

Lemma append_empty_r (s : string) : s ++ "" = s.
Proof.
  induction s as [|a s IH]; [done|].
  change (String a (s ++ "") = String a s). by f_equal.
Qed.

Lemma snoc_app (acc : string) (c : ascii) (s : string) :
  snoc acc c ++ s = acc ++ String c s.
Proof.
  unfold snoc. induction acc as [|a acc IH]; [done|].
  change (String a ((acc ++ String c "") ++ s) = String a (acc ++ String c s)).
  by f_equal.
Qed.

Lemma string_forall_impl (p q : ascii → bool) (s : string) :
  (∀ c, p c = true → q c = true) →
  string_forall p s = true → string_forall q s = true.
Proof.
  intros Hpq. induction s as [|c s IH]; simpl; [done|].
  intros [Hc Hs]%andb_prop. by rewrite (Hpq c Hc), IH.
Qed.

(** The lexer can be run part by part. *)
Lemma lex_app (st : lex_state) (s1 s2 : string) :
  lex st (s1 ++ s2)
  = (fun l => ((lex_run st s1).1 ++ l)%list) <$> lex (lex_run st s1).2 s2.
Proof.
  revert st. induction s1 as [|c s1 IH]; intros st.
  - change ("" ++ s2) with s2. simpl. by destruct (lex st s2).
  - change (lex st (String c s1 ++ s2))
      with (let '(ts, st') := lex_step st c in (ts ++.) <$> lex st' (s1 ++ s2)).
    change (lex_run st (String c s1))
      with (let '(ts, st') := lex_step st c in
            let '(ts', st'') := lex_run st' s1 in ((ts ++ ts')%list, st'')).
    destruct (lex_step st c) as [ts st']. rewrite IH.
    destruct (lex_run st' s1) as [ts' st'']. simpl.
    destruct (lex st'' s2) as [l|]; simpl; [|done]. by rewrite app_assoc.
Qed.

(** Inside a literal, a text without a quote is taken as it is. *)
Lemma lex_run_literal (acc s : string) :
  no_quote s = true → lex_run (LLiteral acc) s = ([], LLiteral (acc ++ s)).
Proof.
  unfold no_quote. revert acc. induction s as [|c s IH]; intros acc; simpl.
  - intros _. by rewrite append_empty_r.
  - intros [Hc Hs]%andb_prop. apply negb_true_iff in Hc. rewrite Hc.
    rewrite (IH _ Hs). by rewrite snoc_app.
Qed.

(** A literal that is never closed is an error. *)
Lemma lex_literal_open (acc s : string) :
  no_quote s = true → lex (LLiteral acc) s = None.
Proof.
  unfold no_quote. revert acc. induction s as [|c s IH]; intros acc; simpl; [done|].
  intros [Hc Hs]%andb_prop. apply negb_true_iff in Hc. rewrite Hc.
  by rewrite (IH _ Hs).
Qed.

(** A comment swallows the rest of its line. *)
Lemma lex_comment (s : string) :
  string_forall (fun c => negb (is_newline c)) s = true → lex LComment s = Some [].
Proof.
  induction s as [|c s IH]; simpl; [done|].
  intros [Hc Hs]%andb_prop. apply negb_true_iff in Hc. rewrite Hc.
  by rewrite (IH Hs).
Qed.

Lemma lex_word (acc s : string) :
  string_forall is_word_char s = true → lex (LWord acc) s = Some [TWord (acc ++ s)].
Proof.
  revert acc. induction s as [|c s IH]; intros acc; simpl.
  - intros _. by rewrite append_empty_r.
  - intros [Hc Hs]%andb_prop. rewrite Hc. rewrite (IH _ Hs). simpl.
    by rewrite snoc_app.
Qed.

(** *** The identifier in the text *)

Lemma digits_string_of_uint (d : Decimal.uint) :
  string_forall is_digit (NilEmpty.string_of_uint d) = true.
Proof. induction d as [|d IH|d IH|d IH|d IH|d IH|d IH|d IH|d IH|d IH|d IH]; simpl; done. Qed.

Lemma number_string_of_uint (d : Decimal.uint) :
  number (NilEmpty.string_of_uint d) = Some (Z.of_uint d).
Proof.
  unfold number, all_digits. by rewrite digits_string_of_uint, NilEmpty.usu.
Qed.

Lemma NilZero_string_of_uint (d : Decimal.uint) :
  d ≠ Decimal.Nil → NilZero.string_of_uint d = NilEmpty.string_of_uint d.
Proof. by destruct d. Qed.

Lemma string_of_uint_nonempty (d : Decimal.uint) :
  d ≠ Decimal.Nil → NilEmpty.string_of_uint d ≠ "".
Proof. by destruct d. Qed.

(** [int_str] writes a sign, if any, and at least one digit, and [number]
    reads the digits back. *)
Lemma int_str_spec (id : Z) :
  ∃ d, string_forall is_digit d = true ∧ d ≠ "" ∧
       (((0 ≤ id) ∧ int_str id = d ∧ number d = Some id)
        ∨ ((id < 0) ∧ int_str id = String "-" d ∧ number d = Some (- id))).
Proof.
  destruct id as [|p|p].
  - exists "0". split; [done|]. split; [done|]. left. by split.
  - exists (NilEmpty.string_of_uint (Pos.to_uint p)).
    pose proof (Unsigned.to_uint_nonnil p) as Hnil.
    split; [apply digits_string_of_uint|].
    split; [by apply string_of_uint_nonempty|]. left. split; [lia|]. split.
    + unfold int_str. simpl. by apply NilZero_string_of_uint.
    + rewrite number_string_of_uint. unfold Z.of_uint.
      by rewrite Unsigned.of_to.
  - exists (NilEmpty.string_of_uint (Pos.to_uint p)).
    pose proof (Unsigned.to_uint_nonnil p) as Hnil.
    split; [apply digits_string_of_uint|].
    split; [by apply string_of_uint_nonempty|]. right. split; [lia|]. split.
    + unfold int_str. simpl. by rewrite NilZero_string_of_uint.
    + rewrite number_string_of_uint. unfold Z.of_uint.
      by rewrite Unsigned.of_to.
Qed.

Lemma is_digit_word (c : ascii) : is_digit c = true → is_word_char c = true.
Proof.
  unfold is_digit, is_word_char. intros H. by rewrite H.
Qed.

Lemma is_digit_not_quote (c : ascii) : is_digit c = true → is_quote c = false.
Proof.
  unfold is_quote. intros H. apply bool_decide_eq_false. by intros ->.
Qed.

Lemma is_digit_not_dash (c : ascii) :
  is_digit c = true → bool_decide (c = "-"%char) = false.
Proof. intros H. apply bool_decide_eq_false. by intros ->. Qed.

Lemma is_digit_not_newline (c : ascii) : is_digit c = true → is_newline c = false.
Proof.
  unfold is_digit, is_newline. intros H. apply bool_decide_eq_false.
  intros Hn. rewrite Hn in H. done.
Qed.

(** Digits outside a literal make one word. *)
Lemma lex_digits (d : string) :
  string_forall is_digit d = true → d ≠ "" → lex LDefault d = Some [TWord d].
Proof.
  destruct d as [|c d]; [done|]. simpl. intros [Hc Hd]%andb_prop _.
  unfold lex_start.
  rewrite (is_digit_not_quote c Hc), (is_digit_word c Hc). simpl.
  rewrite lex_word; [done|].
  eapply string_forall_impl; [apply is_digit_word|done].
Qed.

Lemma lex_int_str (id : Z) :
  ∃ ts, lex LDefault (int_str id) = Some ts
        ∧ parse_where (drop_semicolon
                         (TWord "WHERE" :: TWord "id" :: TSym "=" :: ts))
          = Some (Some id).
Proof.
  destruct (int_str_spec id) as (d & Hd & Hne & [(Hid & -> & Hnum)|(Hid & -> & Hnum)]).
  - exists [TWord d]. split; [by apply lex_digits|].
    simpl. change (is_kw "WHERE" "where") with true.
    change (is_kw "id" "id") with true. simpl. by rewrite Hnum.
  - exists [TSym "-"; TWord d]. split.
    + destruct d as [|c d]; [done|]. simpl in Hd. apply andb_prop in Hd as [Hc Hd].
      simpl. rewrite (is_digit_not_dash c Hc). unfold lex_start.
      rewrite (is_digit_not_quote c Hc), (is_digit_word c Hc). simpl.
      rewrite lex_word; [done|].
      eapply string_forall_impl; [apply is_digit_word|done].
    + simpl. change (is_kw "WHERE" "where") with true.
      change (is_kw "id" "id") with true. simpl. rewrite Hnum. simpl.
      f_equal. f_equal. lia.
Qed.

Lemma int_str_no_quote (id : Z) : no_quote (int_str id) = true.
Proof.
  unfold no_quote.
  destruct (int_str_spec id) as (d & Hd & _ & [(_ & -> & _)|(_ & -> & _)]).
  - eapply string_forall_impl; [|exact Hd].
    intros c Hc. by rewrite (is_digit_not_quote c Hc).
  - simpl. eapply string_forall_impl; [|exact Hd].
    intros c Hc. by rewrite (is_digit_not_quote c Hc).
Qed.

Lemma int_str_one_line (id : Z) :
  string_forall (fun c => negb (is_newline c)) (int_str id) = true.
Proof.
  destruct (int_str_spec id) as (d & Hd & _ & [(_ & -> & _)|(_ & -> & _)]).
  - eapply string_forall_impl; [|exact Hd].
    intros c Hc. by rewrite (is_digit_not_newline c Hc).
  - simpl. eapply string_forall_impl; [|exact Hd].
    intros c Hc. by rewrite (is_digit_not_newline c Hc).
Qed.

(** *** What the store makes of the text *)

Ltac lex_part :=
  rewrite lex_app;
  match goal with
  | |- context [lex_run ?st ?s] =>
      let r := eval vm_compute in (lex_run st s) in
      change (lex_run st s) with r
  end;
  cbn [fst snd].

(** A status without a quote is stored as it is, in the one row named. *)
Lemma parse_update_sql (status : string) (id : Z) :
  no_quote status = true →
  parse_sql (update_sql status id) = Some (UpdateOrdersStatus status (Some id)).
Proof.
  intros Hq. unfold parse_sql, update_sql.
  lex_part.
  rewrite lex_app, (lex_run_literal "" status Hq). cbn [fst snd].
  change ("" ++ status) with status.
  lex_part.
  destruct (lex_int_str id) as (ts & -> & Hwhere).
  cbn [fmap option_fmap option_map mbind option_bind app].
  unfold parse.
  change (is_kw "UPDATE" "update") with true.
  change (is_kw "orders" "orders") with true.
  change (is_kw "SET" "set") with true.
  change (is_kw "status" "status") with true.
  cbn [andb is_sym]. rewrite bool_decide_eq_true_2 by done.
  by rewrite Hwhere.
Qed.

(** A quote inside the status closes the literal early; what follows does
    not make a statement. *)
Lemma parse_update_sql_quote (id : Z) :
  parse_sql (update_sql "it's" id) = None.
Proof.
  unfold parse_sql, update_sql.
  do 3 lex_part.
  by rewrite lex_literal_open by apply int_str_no_quote.
Qed.

(** A quote and a comment mark inside the status cut the [WHERE] off. *)
Lemma parse_update_sql_comment (id : Z) :
  parse_sql (update_sql "x' --" id) = Some (UpdateOrdersStatus "x" None).
Proof.
  unfold parse_sql, update_sql.
  do 3 lex_part.
  by rewrite lex_comment by apply int_str_one_line.
Qed.

(** ** Updating the status of an order *)

Lemma plain_no_quote (s : string) : plain s = true → no_quote s = true.
Proof.
  apply string_forall_impl. intros c.
  destruct c as [[] [] [] [] [] [] [] []]; vm_compute; done.
Qed.

Lemma append_assoc (s1 s2 s3 : string) : (s1 ++ s2) ++ s3 = s1 ++ (s2 ++ s3).
Proof.
  induction s1 as [|a s1 IH]; [done|].
  change (String a ((s1 ++ s2) ++ s3) = String a (s1 ++ (s2 ++ s3))).
  by f_equal.
Qed.

Lemma string_forall_app (p : ascii → bool) (s1 s2 : string) :
  string_forall p (s1 ++ s2) = string_forall p s1 && string_forall p s2.
Proof.
  induction s1 as [|a s1 IH]; [done|].
  change (p a && string_forall p (s1 ++ s2)
          = p a && string_forall p s1 && string_forall p s2).
  rewrite IH. by destruct (p a).
Qed.

Lemma plain_char_cases (c : ascii) :
  (is_word_char c || bool_decide (c = " "%char)) = true →
  is_quote c = false
  ∧ ((is_word_char c = true)
     ∨ (is_word_char c = false ∧ lex_start c = ([], LDefault))).
Proof.
  destruct c as [[] [] [] [] [] [] [] []]; vm_compute; intros H;
    first [ discriminate H | split; [done|by left] | split; [done|by right] ].
Qed.

(** Outside a literal, a plain text followed by a quote opens a literal that
    nothing closes. *)
Lemma lex_plain_then_open (q t : string) (st : lex_state) :
  plain q = true → no_quote t = true →
  (st = LDefault ∨ (∃ acc, st = LWord acc) ∨ (∃ acc, st = LQuote acc)) →
  lex st (q ++ String "'" t) = None.
Proof.
  intros Hq Ht. revert st. unfold plain in Hq.
  induction q as [|c q IH]; intros st Hst.
  - change ("" ++ String "'" t) with (String "'" t).
    destruct Hst as [->|[[acc ->]|[acc ->]]]; simpl;
      by rewrite lex_literal_open.
  - change (String c q ++ String "'" t) with (String c (q ++ String "'" t)).
    simpl in Hq. apply andb_prop in Hq as [Hc Hq].
    destruct (plain_char_cases c Hc) as [Hnq Hcase].
    assert (Hstart : ∃ ts st', lex_start c = (ts, st')
              ∧ (st' = LDefault ∨ (∃ acc, st' = LWord acc) ∨ (∃ acc, st' = LQuote acc))).
    { destruct Hcase as [Hw|[Hw Hs]].
      - unfold lex_start. rewrite Hnq, Hw. eexists _, _. split; [done|].
        right. left. by eexists.
      - rewrite Hs. eexists _, _. split; [done|]. by left. }
    destruct Hstart as (ts & st' & Hs & Hst').
    destruct Hst as [->|[[acc ->]|[acc ->]]]; simpl.
    + rewrite Hs. by rewrite (IH Hq st' Hst').
    + destruct Hcase as [Hw|[Hw _]]; rewrite Hw.
      * rewrite (IH Hq); [done|]. right. left. by eexists.
      * rewrite Hs. by rewrite (IH Hq st' Hst').
    + rewrite Hnq, Hs. by rewrite (IH Hq st' Hst').
Qed.

Lemma parse_update_sql_one_quote (p q : string) (id : Z) :
  plain p = true → plain q = true →
  parse_sql (update_sql (p ++ "'" ++ q) id) = None.
Proof.
  intros Hp Hq. unfold parse_sql, update_sql. rewrite !append_assoc.
  lex_part.
  rewrite lex_app, (lex_run_literal "" p (plain_no_quote p Hp)). cbn [fst snd].
  change ("" ++ p) with p.
  lex_part.
  change ("' WHERE id=" ++ int_str id) with (String "'" (" WHERE id=" ++ int_str id)).
  rewrite (lex_plain_then_open q); [done|done| |].
  - pose proof (int_str_no_quote id) as Hn. unfold no_quote in *.
    by rewrite string_forall_app, Hn.
  - right. right. by eexists.
Qed.

Lemma update_order_run (w : World) (id : Z) (r : Order.row) (status : string) :
  faults w = [] → fits_int64 id = true → orders w !! id = Some r →
  update_order id status w =
    match run_text (update_sql status id) w with
    | (Ok _, w') => (Ok (<["status" := VStr status]> (Order.to_dict id r)), w')
    | (Raise e, w') => (Raise (HTTPException 500 (StrOf e)), w')
    end.
Proof.
  intros Hf Hi Hid. handler_unfold. calm. rewrite Hid. calm.
  unfold update_sql. by destruct (run_text _ w) as [[n|e] w'].
Qed.

(** A text the store refuses: nothing is written. *)
Lemma update_order_refused (w : World) (id : Z) (r : Order.row) (status : string) :
  faults w = [] → fits_int64 id = true → orders w !! id = Some r →
  parse_sql (update_sql status id) = None →
  update_order id status w =
    (Raise (HTTPException 500 (StrOf (OperationalError (update_sql status id)))), w).
Proof.
  intros Hf Hi Hid Hp. rewrite (update_order_run w id r status Hf Hi Hid).
  unfold run_text. by rewrite Hp.
Qed.

Lemma to_dict_set_status (id : Z) (r : Order.row) (status : string) :
  <["status" := VStr status]> (Order.to_dict id r)
  = Order.to_dict id (Order.set_status status r).
Proof. reflexivity. Qed.

(** For an order that is there and a status made of letters, digits,
    underscores and spaces, [update_order] writes the status into that row
    and returns the row it had fetched with the status replaced. *)
Lemma update_order_plain (w : World) (id : Z) (r : Order.row) (status : string) :
  faults w = [] → fits_int64 id = true → orders w !! id = Some r →
  plain status = true →
  update_order id status w =
    (Ok (<["status" := VStr status]> (Order.to_dict id r)),
     set_orders (alter (Order.set_status status) id) w).
Proof.
  intros Hf Hi Hid Hp. rewrite (update_order_run w id r status Hf Hi Hid).
  unfold run_text. by rewrite (parse_update_sql status id (plain_no_quote _ Hp)).
Qed.

(** The new status is what a later read returns. *)
Lemma update_order_then_read (w : World) (id : Z) (r : Order.row) (status : string) :
  faults w = [] → fits_int64 id = true → orders w !! id = Some r →
  plain status = true →
  ∃ d w',
    update_order id status w = (Ok d, w')
    ∧ read_order id w' = (Ok d, w')
    ∧ d !! "status" = Some (VStr status).
Proof.
  intros Hf Hi Hid Hp. eexists _, _.
  split; [by apply update_order_plain|]. split; [|reflexivity].
  rewrite to_dict_set_status. apply read_order_existing; [done|done|].
  simpl. rewrite lookup_alter. case_decide; [|done]. by rewrite Hid.
Qed.

(** C3 (the code departs from the claim).  The status is pasted into the
    statement text between two quotes, so a status that holds a quote is not
    stored literally.  With ["it's"] the text is not a statement: the store
    refuses it, the request ends with status 500 and nothing is written.
    With ["x' --"] the text is a statement without its [WHERE]: every order,
    not only the one addressed, gets the status ["x"], while the response
    shows the submitted string. *)
Theorem update_order_quote_in_status (w : World) (id : Z) (r : Order.row) :
  faults w = [] → fits_int64 id = true → orders w !! id = Some r →
  update_order id "it's" w =
    (Raise (HTTPException 500 (StrOf (OperationalError (update_sql "it's" id)))), w)
  ∧ status_code (PUT_orders id (Some "it's") w).1 = 500
  ∧ update_order id "x' --" w =
      (Ok (<["status" := VStr "x' --"]> (Order.to_dict id r)),
       set_orders (fmap (Order.set_status "x")) w)
  ∧ (∀ id' r', orders w !! id' = Some r' →
       orders (update_order id "x' --" w).2 !! id' = Some (Order.set_status "x" r')).
Proof.
  intros Hf Hi Hid.
  assert (H1 : update_order id "it's" w =
    (Raise (HTTPException 500 (StrOf (OperationalError (update_sql "it's" id)))), w)).
  { rewrite (update_order_run w id r _ Hf Hi Hid). unfold run_text.
    by rewrite parse_update_sql_quote. }
  assert (H2 : update_order id "x' --" w =
      (Ok (<["status" := VStr "x' --"]> (Order.to_dict id r)),
       set_orders (fmap (Order.set_status "x")) w)).
  { rewrite (update_order_run w id r _ Hf Hi Hid). unfold run_text.
    by rewrite parse_update_sql_comment. }
  split; [exact H1|]. split; [|split; [exact H2|]].
  - unfold PUT_orders. simpl default. by erewrite route_raise by exact H1.
  - intros id' r' Hid'. rewrite H2. simpl. by rewrite lookup_fmap, Hid'.
Qed.

Lemma update_order_quote_in_status_witness :
  (update_order 1 "it's" two_orders).1 =
    Raise (HTTPException 500
             (StrOf (OperationalError "UPDATE orders SET status='it's' WHERE id=1")))
  ∧ Order.status <$> orders (update_order 1 "x' --" two_orders).2 !! 2 = Some "x".
Proof.
  destruct (update_order_quote_in_status two_orders 1
              (Order_values an_order (utc 0) "pending") eq_refl eq_refl eq_refl)
    as (H1 & _ & _ & H3).
  split; [by rewrite H1|].
  by rewrite (H3 2 (Order_values an_order (utc 2) "pending") eq_refl).
Defined.

(** ** Internal failures, whatever raises them *)

Ltac first_call_fault Hf :=
  handler_unfold; step;
  first [ erewrite fetch_one_fault by exact Hf
        | erewrite execute_fault by exact Hf ];
  done.

(** C10.  An internal failure is an exception [e] raised inside the [try]
    block of a handler.  Whatever raises it, each handler other than
    [read_user] ends with status 500 and [str(e)] as the detail, and
    [read_user] ends with status 500 and the fixed detail
    ["Internal Server Error"], writing [e] to the standard output only:
    - the driver fails at the first call of the handler;
    - the driver fails at the second call of a handler that makes two
      ([delete_item], [update_order], [delete_order] on a row that is
      there);
    - an identifier does not fit the store's integers, so the binding fails
      with an [OverflowError];
    - the store refuses a second user with the same e-mail address with an
      [IntegrityError], on [create_user] and on [update_user];
    - the store refuses the text of [update_order] with an
      [OperationalError], as it does for a status with one quote between two
      plain texts.
    Nothing else is ever raised by a handler, and the route answers with the
    status code and the detail of what the handler raises. *)
Theorem internal_failure_details
    (user : UserCreate) (item : ItemCreate) (order : OrderCreate)
    (id : Z) (status p q : string) (w : World) (e : Exn) l :
  (faults w = Some e :: l →
     Forall (fun h : M Dict => (h w).1 = Raise (HTTPException 500 (StrOf e)))
            (handlers_reporting_str user item order id status)
     ∧ Forall (fun h : M Dict =>
                 (route None h w).1 = {| status_code := 500; body := Detail (StrOf e) |})
              (handlers_reporting_str user item order id status)
     ∧ read_user id w =
         (Raise (HTTPException 500 (Literal "Internal Server Error")),
          set_stdout (FString "Exception in read_user: " e :: stdout w) (set_faults l w))
     ∧ GET_users id w =
         ({| status_code := 500; body := Detail (Literal "Internal Server Error") |},
          set_stdout (FString "Exception in read_user: " e :: stdout w) (set_faults l w)))
  ∧ (faults w = None :: Some e :: l → fits_int64 id = true →
       (is_Some (items w !! id) →
          delete_item id w = (Raise (HTTPException 500 (StrOf e)), set_faults l w))
       ∧ (is_Some (orders w !! id) →
            update_order id status w
            = (Raise (HTTPException 500 (StrOf e)), set_faults l w))
       ∧ (is_Some (orders w !! id) →
            delete_order id w = (Raise (HTTPException 500 (StrOf e)), set_faults l w)))
  ∧ (faults w = [] → fits_int64 id = false →
       Forall (fun h : M Dict => h w = (Raise (HTTPException 500 (StrOf overflow)), w))
              (handlers_binding_id user item id status)
       ∧ read_user id w =
           (Raise (HTTPException 500 (Literal "Internal Server Error")),
            set_stdout (FString "Exception in read_user: " overflow :: stdout w) w))
  ∧ (faults w = [] →
     fits_int64 (user_id order) && fits_int64 (item_id order) = false →
       create_order order w =
         (Raise (HTTPException 500 (StrOf overflow)), set_ticks (S (ticks w)) w))
  ∧ (faults w = [] → email_taken (users w) None (email user) = true →
       create_user user w = (Raise (HTTPException 500 (StrOf users_email_unique)), w))
  ∧ (faults w = [] → fits_int64 id = true →
     email_conflict (users w) id (email user) = true →
       update_user id user w
       = (Raise (HTTPException 500 (StrOf users_email_unique)), w))
  ∧ (faults w = [] → fits_int64 id = true → is_Some (orders w !! id) →
     plain p = true → plain q = true →
       update_order id (p ++ "'" ++ q) w =
         (Raise (HTTPException 500
                   (StrOf (OperationalError (update_sql (p ++ "'" ++ q) id)))), w))
  ∧ (∀ (h : M Dict) e',
       h ∈ handlers_reporting_str user item order id status →
       (h w).1 = Raise e' → ∃ e0, e' = HTTPException 500 (StrOf e0))
  ∧ (∀ e', (read_user id w).1 = Raise e' →
           e' = HTTPException 500 (Literal "Internal Server Error"))
  ∧ (∀ model (h : M Dict) sc m w',
       h w = (Raise (HTTPException sc m), w') →
       route model h w = ({| status_code := sc; body := Detail m |}, w')).
Proof.
  split; [|split; [|split; [|split; [|split; [|split; [|split; [|split; [|split]]]]]]]].
  - intros Hf.
    assert (Hall : Forall (fun h : M Dict => (h w).1 = Raise (HTTPException 500 (StrOf e)))
                     (handlers_reporting_str user item order id status)).
    { unfold handlers_reporting_str.
      repeat apply Forall_cons_2; try apply Forall_nil_2; first_call_fault Hf. }
    assert (Hread : read_user id w =
        (Raise (HTTPException 500 (Literal "Internal Server Error")),
         set_stdout (FString "Exception in read_user: " e :: stdout w) (set_faults l w))).
    { first_call_fault Hf. }
    split; [done|]. split; [|split; [done|]].
    + eapply Forall_impl; [exact Hall|]. intros h. unfold route.
      destruct (h w) as [[d|e0] w']; simpl; intros Hh; [done|].
      injection Hh as ->. reflexivity.
    + unfold GET_users, route. by rewrite Hread.
  - intros Hf Hi. by apply second_call_fault.
  - intros Hf Hi. split; [by apply id_overflow|by apply read_user_overflow].
  - intros Hf Hi. by apply create_order_overflow.
  - intros Hf He. by apply create_user_email_taken.
  - intros Hf Hi He. by apply update_user_email_taken.
  - intros Hf Hi [r Hr] Hp Hq. apply (update_order_refused w id r); [done..|].
    by apply parse_update_sql_one_quote.
  - intros h e' Hh. by apply (handlers_raise_500_str user item order id status).
  - apply read_user_raises_fixed_detail.
  - intros model h sc m w'. apply route_raise.
Qed.

Lemma internal_failure_details_witness :
  (read_item 1 (set_faults [Some lost_connection] empty_world)).1
  = Raise (HTTPException 500 (StrOf lost_connection))
  ∧ (read_user 1 (set_faults [Some lost_connection] empty_world)).1
    = Raise (HTTPException 500 (Literal "Internal Server Error"))
  ∧ update_order 1 "shipped" (set_faults [None; Some lost_connection] small_shop)
    = (Raise (HTTPException 500 (StrOf lost_connection)), small_shop)
  ∧ update_item (2 ^ 63) widget small_shop
    = (Raise (HTTPException 500 (StrOf overflow)), small_shop)
  ∧ create_user alice small_shop
    = (Raise (HTTPException 500 (StrOf users_email_unique)), small_shop)
  ∧ update_order 1 ("O" ++ "'" ++ "Brien") small_shop
    = (Raise (HTTPException 500
                (StrOf (OperationalError (update_sql ("O" ++ "'" ++ "Brien") 1)))),
       small_shop).
Proof.
  split; [|split; [|split; [|split; [|split]]]].
  - destruct (proj1 (internal_failure_details alice widget an_order 1 "shipped"
                       "" "" (set_faults [Some lost_connection] empty_world)
                       lost_connection []) eq_refl) as (Hall & _).
    apply (proj1 (Forall_forall _ _) Hall). unfold handlers_reporting_str.
    set_solver.
  - destruct (proj1 (internal_failure_details alice widget an_order 1 "shipped"
                       "" "" (set_faults [Some lost_connection] empty_world)
                       lost_connection []) eq_refl) as (_ & _ & Hread & _).
    by rewrite Hread.
  - destruct (internal_failure_details alice widget an_order 1 "shipped" "" ""
                (set_faults [None; Some lost_connection] small_shop)
                lost_connection []) as (_ & H & _).
    destruct (H eq_refl eq_refl) as (_ & Hu & _).
    apply Hu. by eexists.
  - destruct (internal_failure_details alice widget an_order (2 ^ 63) "shipped"
                "" "" small_shop lost_connection []) as (_ & _ & Hov & _).
    destruct (Hov eq_refl eq_refl) as (Hall & _).
    apply (proj1 (Forall_forall _ _) Hall). unfold handlers_binding_id.
    do 3 apply list_elem_of_further. apply list_elem_of_here.
  - destruct (internal_failure_details alice widget an_order 1 "shipped" "" ""
                small_shop lost_connection []) as (_ & _ & _ & _ & H & _).
    by apply H.
  - destruct (internal_failure_details alice widget an_order 1 "shipped"
                "O" "Brien" small_shop lost_connection [])
      as (_ & _ & _ & _ & _ & _ & H & _).
    apply H; try reflexivity. by eexists.
Defined.

(** * Further properties of the handlers *)

(** ** What a handler leaves alone *)

Section Keeps.
Context {X : Type} (f : World → X).
Hypothesis f_faults : ∀ l w, f (set_faults l w) = f w.

Lemma keeps_ret {A} (a : A) : keeps f (ret a).
Proof. by intros w. Qed.

Lemma keeps_raise {A} (e : Exn) : keeps f (raise (A := A) e).
Proof. by intros w. Qed.

Lemma keeps_bind {A B} (c : M A) (k : A → M B) :
  keeps f c → (∀ a, keeps f (k a)) → keeps f (bind c k).
Proof.
  intros Hc Hk w. unfold bind. specialize (Hc w).
  destruct (c w) as [[a|e] w']; simpl in *; [|done].
  by rewrite Hk.
Qed.

Lemma keeps_try_except {A} (c : M A) (h : Exn → M A) :
  keeps f c → (∀ e, keeps f (h e)) → keeps f (try_except c h).
Proof.
  intros Hc Hh w. unfold try_except. specialize (Hc w).
  destruct (c w) as [[a|e] w']; simpl in *; [done|].
  by rewrite Hh.
Qed.

Lemma keeps_bind_params {A} (params : list Z) (run : M A) :
  keeps f run → keeps f (bind_params params run).
Proof. intros Hrun w. unfold bind_params. by destruct (forallb _ _). Qed.

Lemma keeps_driver_call {A} (run : M A) :
  keeps f run → keeps f (driver_call run).
Proof.
  intros Hrun w. unfold driver_call.
  destruct (faults w) as [|[e|] l]; simpl; [apply Hrun|apply f_faults|].
  by rewrite Hrun, f_faults.
Qed.

Lemma keeps_run_select (q : Select) : keeps f (run_select q).
Proof. intros w. by rewrite run_select_world. Qed.

Lemma keeps_fetch_one (q : Select) : keeps f (fetch_one q).
Proof.
  unfold fetch_one. apply keeps_driver_call, keeps_bind_params, keeps_run_select.
Qed.

Lemma keeps_execute (q : Statement) :
  keeps f (run_statement q) → keeps f (execute q).
Proof. intros H. unfold execute. by apply keeps_driver_call, keeps_bind_params. Qed.
End Keeps.

Lemma run_statement_keeps_users (q : Statement) :
  statement_table q ≠ Users → keeps users (run_statement q).
Proof.
  intros Hq w. destruct q; try done; unfold run_statement; try reflexivity.
  - by destruct (insert_row _ _) as [[id t]|e].
  - by destruct (insert_row _ _) as [[id t]|e].
  - unfold run_text. by destruct (parse_sql sql) as [[s [k|]]|].
Qed.

Lemma run_statement_keeps_items (q : Statement) :
  statement_table q ≠ Items → keeps items (run_statement q).
Proof.
  intros Hq w. destruct q; try done; unfold run_statement; try reflexivity.
  - destruct (email_taken _ _ _); [done|].
    by destruct (insert_row _ _) as [[id t]|e].
  - by destruct (email_conflict _ _ _).
  - by destruct (insert_row _ _) as [[id t]|e].
  - unfold run_text. by destruct (parse_sql sql) as [[s [k|]]|].
Qed.

Lemma run_statement_keeps_orders (q : Statement) :
  statement_table q ≠ Orders → keeps orders (run_statement q).
Proof.
  intros Hq w. destruct q; try done; unfold run_statement; try reflexivity.
  - destruct (email_taken _ _ _); [done|].
    by destruct (insert_row _ _) as [[id t]|e].
  - by destruct (email_conflict _ _ _).
  - by destruct (insert_row _ _) as [[id t]|e].
Qed.

Lemma run_statement_keeps_stdout (q : Statement) : keeps stdout (run_statement q).
Proof.
  intros w. destruct q; unfold run_statement; try reflexivity.
  - destruct (email_taken _ _ _); [done|].
    by destruct (insert_row _ _) as [[id t]|e].
  - by destruct (email_conflict _ _ _).
  - by destruct (insert_row _ _) as [[id t]|e].
  - by destruct (insert_row _ _) as [[id t]|e].
  - unfold run_text. by destruct (parse_sql sql) as [[s [k|]]|].
Qed.

(** The handler is taken apart along its [try], its sequencing and its
    calls of the driver; [leaf] settles the statements. *)
Ltac frame leaf :=
  unfold create_user, read_user, update_user, delete_user,
         create_item, read_item, update_item, delete_item,
         create_order, read_order, update_order, delete_order;
  repeat first
    [ apply keeps_try_except
    | apply keeps_bind
    | apply keeps_ret
    | apply keeps_raise
    | apply keeps_fetch_one; done
    | apply keeps_execute; [done|leaf; done]
    | progress (intros; cbv beta)
    | match goal with
      | |- keeps _ (match ?x with _ => _ end) => destruct x
      end
    | by intros ? ].

(** X1.  A handler writes to the table of its own entity only: whatever the
    state of the store and whatever the outcome, the user handlers leave items
    and orders as they were, the item handlers users and orders, the order
    handlers users and items.  This holds for [update_order] and any status
    string as well. *)
Theorem handlers_keep_other_tables
    (user : UserCreate) (item : ItemCreate) (order : OrderCreate)
    (id : Z) (status : string) :
  Forall (fun h : M Dict => keeps items h ∧ keeps orders h) (user_handlers user id)
  ∧ Forall (fun h : M Dict => keeps users h ∧ keeps orders h) (item_handlers item id)
  ∧ Forall (fun h : M Dict => keeps users h ∧ keeps items h)
      (order_handlers order id status).
Proof.
  unfold user_handlers, item_handlers, order_handlers.
  repeat split; repeat apply Forall_cons_2; try apply Forall_nil_2; split;
    first [ solve [frame ltac:(apply run_statement_keeps_users)]
          | solve [frame ltac:(apply run_statement_keeps_items)]
          | solve [frame ltac:(apply run_statement_keeps_orders)] ].
Qed.

(** X2.  The three read handlers change no table at all, their own
    included, whether they succeed or fail. *)
Theorem reads_change_no_table (id : Z) :
  Forall (fun h : M Dict => keeps users h ∧ keeps items h ∧ keeps orders h)
         (read_handlers id).
Proof.
  unfold read_handlers.
  repeat apply Forall_cons_2; try apply Forall_nil_2; repeat split;
    solve [frame idtac].
Qed.

(** X3.  Only [read_user] writes to the standard output, and only when it
    fails, one line for the failed request: the other eleven handlers never
    print, and a [read_user] that succeeds prints nothing. *)
Theorem only_read_user_prints
    (user : UserCreate) (item : ItemCreate) (order : OrderCreate)
    (id : Z) (status : string) (w : World) :
  Forall (fun h : M Dict => stdout (h w).2 = stdout w)
         (handlers_reporting_str user item order id status)
  ∧ match (read_user id w).1 with
    | Ok _ => stdout (read_user id w).2 = stdout w
    | Raise _ =>
        ∃ e, stdout (read_user id w).2
             = FString "Exception in read_user: " e :: stdout w
    end.
Proof.
  split.
  - unfold handlers_reporting_str.
    repeat apply Forall_cons_2; try apply Forall_nil_2;
      match goal with
      | |- stdout (?h w).2 = stdout w =>
          assert (Hk : keeps stdout h);
          [solve [frame ltac:(apply run_statement_keeps_stdout)]|apply Hk]
      end.
  - pose proof (keeps_fetch_one stdout (fun _ _ => eq_refl) (users_select id) w) as Hk.
    unfold read_user, try_except, bind, ret, raise, print.
    destruct (fetch_one (users_select id) w) as [[[d|]|e] w']; simpl in *.
    + done.
    + eexists. by rewrite Hk.
    + eexists. by rewrite Hk.
Qed.

(** ** Rows that are there: reading, deleting, replacing *)

Lemma read_user_existing (w : World) (id : Z) (r : User.row) :
  faults w = [] → fits_int64 id = true → users w !! id = Some r →
  read_user id w = (Ok (User.to_dict id r), w).
Proof. intros Hf Hi Hid. handler_unfold. calm. by rewrite Hid. Qed.

Lemma read_item_existing (w : World) (id : Z) (r : Item.row) :
  faults w = [] → fits_int64 id = true → items w !! id = Some r →
  read_item id w = (Ok (Item.to_dict id r), w).
Proof. intros Hf Hi Hid. handler_unfold. calm. by rewrite Hid. Qed.

Lemma delete_user_calm (w : World) (id : Z) :
  faults w = [] → fits_int64 id = true →
  delete_user id w = (Ok (message "User deleted"), set_users (delete id) w).
Proof. intros Hf Hi. handler_unfold. by calm. Qed.

Lemma delete_order_existing (w : World) (id : Z) (r : Order.row) :
  faults w = [] → fits_int64 id = true → orders w !! id = Some r →
  delete_order id w =
    (Ok (message "Order deleted successfully"), set_orders (delete id) w).
Proof. intros Hf Hi Hid. handler_unfold. calm. rewrite Hid. by calm. Qed.

Lemma update_item_calm (w : World) (id : Z) (item : ItemCreate) :
  faults w = [] → fits_int64 id = true →
  update_item id item w =
    (Ok (<["id" := VInt id]> (ItemCreate_dict item)),
     set_items (alter (fun _ => Item_values item) id) w).
Proof. intros Hf Hi. handler_unfold. by calm. Qed.

Lemma message_json (s : string) :
  map_Forall (fun _ v => json_value v = true) (message s).
Proof. unfold message. by apply map_Forall_singleton. Qed.

Lemma set_users_id (w : World) (t : gmap Z User.row) :
  t = users w → set_users (fun _ => t) w = w.
Proof. intros ->. by destruct w. Qed.

Lemma set_items_id (w : World) (t : gmap Z Item.row) :
  t = items w → set_items (fun _ => t) w = w.
Proof. intros ->. by destruct w. Qed.

(** X4.  [delete_user] never looks the row up: for every identifier, of a
    user that is there or not, it answers with the message ["User deleted"].
    Afterwards no user has that identifier, the other users are as they
    were, a read of the identifier ends with status 500, and a second delete
    gives the same answer and changes nothing more. *)
Theorem delete_user_unconditional (w : World) (id : Z) :
  faults w = [] → fits_int64 id = true →
  ∃ w',
    delete_user id w = (Ok (message "User deleted"), w')
    ∧ DELETE_users id w =
        ({| status_code := 200; body := JSON (message "User deleted") |}, w')
    ∧ users w' !! id = None
    ∧ (∀ k, k ≠ id → users w' !! k = users w !! k)
    ∧ (read_user id w').1
      = Raise (HTTPException 500 (Literal "Internal Server Error"))
    ∧ delete_user id w' = (Ok (message "User deleted"), w').
Proof.
  intros Hf Hi. exists (set_users (delete id) w).
  pose proof (delete_user_calm w id Hf Hi) as Hd.
  assert (Hgone : users (set_users (delete id) w) !! id = None)
    by apply lookup_delete_eq.
  split; [done|]. split; [|split; [done|split; [|split]]].
  - unfold DELETE_users, route. rewrite Hd.
    by rewrite render_ok by apply message_json.
  - intros k Hk. simpl. by apply lookup_delete_ne.
  - by rewrite read_user_missing.
  - rewrite delete_user_calm by done. f_equal.
    destruct w as [us its os c t f out]. unfold set_users. simpl. f_equal.
    apply delete_delete_eq.
Qed.

Lemma delete_user_unconditional_witness :
  ∃ w',
    delete_user 9 small_shop = (Ok (message "User deleted"), w')
    ∧ DELETE_users 9 small_shop =
        ({| status_code := 200; body := JSON (message "User deleted") |}, w')
    ∧ users w' !! 9 = None
    ∧ (∀ k, k ≠ 9 → users w' !! k = users small_shop !! k)
    ∧ (read_user 9 w').1
      = Raise (HTTPException 500 (Literal "Internal Server Error"))
    ∧ delete_user 9 w' = (Ok (message "User deleted"), w').
Proof. apply (delete_user_unconditional small_shop 9); reflexivity. Defined.

(** X5.  [delete_item] on an item that is there removes that row and no
    other; from then on a read and a second delete of the same identifier
    both end with status 500, the detail being the [str] of the 404 the
    handler raised to itself. *)
Theorem delete_item_then_gone (w : World) (id : Z) (r : Item.row) :
  faults w = [] → fits_int64 id = true → items w !! id = Some r →
  ∃ w',
    delete_item id w = (Ok (message "Item deleted successfully"), w')
    ∧ items w' !! id = None
    ∧ (∀ k, k ≠ id → items w' !! k = items w !! k)
    ∧ read_item id w' = (Raise (HTTPException 500 (StrOf (not_found "Item"))), w')
    ∧ delete_item id w' = (Raise (HTTPException 500 (StrOf (not_found "Item"))), w').
Proof.
  intros Hf Hi Hid. exists (set_items (delete id) w).
  assert (Hgone : items (set_items (delete id) w) !! id = None)
    by apply lookup_delete_eq.
  split; [by apply (delete_item_existing w id r)|]. split; [done|].
  split; [intros k Hk; simpl; by apply lookup_delete_ne|].
  split; [by apply read_item_missing|by apply delete_item_missing].
Qed.

Lemma delete_item_then_gone_witness :
  ∃ w',
    delete_item 1 small_shop = (Ok (message "Item deleted successfully"), w')
    ∧ items w' !! 1 = None
    ∧ (∀ k, k ≠ 1 → items w' !! k = items small_shop !! k)
    ∧ read_item 1 w' = (Raise (HTTPException 500 (StrOf (not_found "Item"))), w')
    ∧ delete_item 1 w' = (Raise (HTTPException 500 (StrOf (not_found "Item"))), w').
Proof.
  apply (delete_item_then_gone small_shop 1 (Item_values widget)); reflexivity.
Defined.

(** X6.  [delete_order] looks the order up first.  When it is there the row
    is removed, the other orders stay and the fixed message is returned;
    when it is not, nothing is written and the request ends with status 500.
    Either way no order has the identifier afterwards. *)
Theorem delete_order_outcomes (w : World) (id : Z) :
  faults w = [] → fits_int64 id = true →
  match orders w !! id with
  | Some _ =>
      delete_order id w =
        (Ok (message "Order deleted successfully"), set_orders (delete id) w)
  | None =>
      delete_order id w = (Raise (HTTPException 500 (StrOf (not_found "Order"))), w)
  end
  ∧ orders (delete_order id w).2 !! id = None
  ∧ (∀ k, k ≠ id → orders (delete_order id w).2 !! k = orders w !! k).
Proof.
  intros Hf Hi. destruct (orders w !! id) as [r|] eqn:Hid.
  - rewrite (delete_order_existing w id r) by done. split; [done|]. simpl.
    split; [apply lookup_delete_eq|]. intros k Hk. by apply lookup_delete_ne.
  - rewrite delete_order_missing by done. by repeat split.
Qed.

Lemma delete_order_outcomes_witness :
  delete_order 1 small_shop =
    (Ok (message "Order deleted successfully"), set_orders (delete 1) small_shop)
  ∧ delete_order 2 small_shop =
    (Raise (HTTPException 500 (StrOf (not_found "Order"))), small_shop).
Proof.
  split.
  - exact (proj1 (delete_order_outcomes small_shop 1 eq_refl eq_refl)).
  - exact (proj1 (delete_order_outcomes small_shop 2 eq_refl eq_refl)).
Defined.

(** X7.  [update_item] sends its update without looking the row up.  With
    a working driver and a finite price, for an identifier within the
    store's integers it answers 200 with the submitted fields and the
    identifier, whether the item is there or not.  When the item is there
    its row holds the submitted fields afterwards, the price as the store
    keeps it, and a read returns the answer with that price: the answer
    itself unless the price is a negative zero, which reads back as zero.
    When the item is not there nothing is written, and a read of the
    identifier ends with status 500.  No other item changes.  For an
    identifier outside the store's integers the request ends with status 500
    and the text of the overflow, and nothing is written. *)
Theorem update_item_unconditional (w : World) (id : Z) (item : ItemCreate) :
  faults w = [] → finite (price item) = true →
  (fits_int64 id = true →
   ∃ d d' w',
     d = <["id" := VInt id]> (ItemCreate_dict item)
     ∧ d' = <["price" := VFloat (store_real (price item))]> d
     ∧ update_item id item w = (Ok d, w')
     ∧ PUT_items id item w = ({| status_code := 200; body := JSON d |}, w')
     ∧ (∀ k, k ≠ id → items w' !! k = items w !! k)
     ∧ (is_Some (items w !! id) →
          items w' !! id = Some (Item_values item)
          ∧ read_item id w' = (Ok d', w')
          ∧ GET_items id w' = ({| status_code := 200; body := JSON d' |}, w')
          ∧ (price item ≠ S754_zero true → d' = d))
     ∧ (items w !! id = None →
          w' = w
          ∧ read_item id w' = (Raise (HTTPException 500 (StrOf (not_found "Item"))), w')))
  ∧ (fits_int64 id = false →
       update_item id item w = (Raise (HTTPException 500 (StrOf overflow)), w)
       ∧ PUT_items id item w
         = ({| status_code := 500; body := Detail (StrOf overflow) |}, w)).
Proof.
  intros Hf Hp. split.
  - intros Hi.
    exists (<["id" := VInt id]> (ItemCreate_dict item)),
           (Item.to_dict id (Item_values item)),
           (set_items (alter (fun _ => Item_values item) id) w).
    pose proof (update_item_calm w id item Hf Hi) as Hu.
    split; [done|]. split; [apply Item_values_to_dict|]. split; [done|].
    split; [|split; [|split]].
    + unfold PUT_items, route. rewrite Hu, ItemRead_model_keeps_all.
      by rewrite render_ok by by apply created_item_json.
    + intros k Hk. simpl. by apply lookup_alter_ne.
    + intros [r Hr].
      assert (Hrow : items (set_items (alter (fun _ => Item_values item) id) w) !! id
                     = Some (Item_values item)).
      { simpl. by rewrite lookup_alter_eq, Hr. }
      split; [done|]. split; [by apply read_item_existing|]. split.
      * apply GET_items_existing; [done|done|done|].
        simpl. by rewrite store_real_finite.
      * intros Hz. by apply Item_values_to_dict_same.
    + intros Hid.
      assert (Hw : set_items (alter (fun _ => Item_values item) id) w = w).
      { destruct w as [us its os c t f out]. unfold set_items. simpl in *.
        f_equal. apply map_eq. intros k. rewrite lookup_alter.
        case_decide; [subst; by rewrite Hid|done]. }
      rewrite Hw. split; [done|]. by apply read_item_missing.
  - intros Hi.
    assert (Hu : update_item id item w
                 = (Raise (HTTPException 500 (StrOf overflow)), w)).
    { assert (Hq : forallb fits_int64 [id] = false) by (cbn [forallb]; by rewrite Hi).
      handler_unfold. step. by rewrite execute_overflow by done. }
    split; [done|]. unfold PUT_items. by apply route_raise.
Qed.

Lemma update_item_unconditional_witness :
  (∃ d d' w',
     d = <["id" := VInt 1]> (ItemCreate_dict gadget)
     ∧ d' = <["price" := VFloat (store_real (price gadget))]> d
     ∧ update_item 1 gadget small_shop = (Ok d, w')
     ∧ PUT_items 1 gadget small_shop = ({| status_code := 200; body := JSON d |}, w')
     ∧ (∀ k, k ≠ 1 → items w' !! k = items small_shop !! k)
     ∧ (is_Some (items small_shop !! 1) →
          items w' !! 1 = Some (Item_values gadget)
          ∧ read_item 1 w' = (Ok d', w')
          ∧ GET_items 1 w' = ({| status_code := 200; body := JSON d' |}, w')
          ∧ (price gadget ≠ S754_zero true → d' = d))
     ∧ (items small_shop !! 1 = None →
          w' = small_shop
          ∧ read_item 1 w'
            = (Raise (HTTPException 500 (StrOf (not_found "Item"))), w')))
  ∧ update_item (2 ^ 63) gadget small_shop
    = (Raise (HTTPException 500 (StrOf overflow)), small_shop).
Proof.
  split.
  - exact (proj1 (update_item_unconditional small_shop 1 gadget eq_refl eq_refl)
             eq_refl).
  - exact (proj1 (proj2 (update_item_unconditional small_shop (2 ^ 63) gadget
                           eq_refl eq_refl) eq_refl)).
Defined.

(** ** The unique index on the e-mail address *)

Lemma email_taken_true (t : gmap Z User.row) (self : option Z) (e : string) :
  email_taken t self e = true
  ↔ ∃ k r, t !! k = Some r ∧ User.email r = e ∧ Some k ≠ self.
Proof.
  unfold email_taken. rewrite existsb_exists. split.
  - intros ([k r] & Hin & H). apply andb_prop in H as [H1 H2].
    apply bool_decide_eq_true in H1.
    apply negb_true_iff, bool_decide_eq_false in H2.
    exists k, r. split; [|done].
    by apply elem_of_map_to_list, list_elem_of_In.
  - intros (k & r & Hk & He & Hself). exists (k, r). split.
    + by apply list_elem_of_In, elem_of_map_to_list.
    + simpl. rewrite bool_decide_eq_true_2 by done.
      by rewrite bool_decide_eq_false_2.
Qed.

Lemma email_taken_false (t : gmap Z User.row) (self : option Z) (e : string) :
  email_taken t self e = false
  ↔ ∀ k r, t !! k = Some r → User.email r = e → Some k = self.
Proof.
  rewrite <- not_true_iff_false, email_taken_true. split.
  - intros Hno k r Hk He. destruct (decide (Some k = self)) as [|Hne]; [done|].
    destruct Hno. by exists k, r.
  - intros Hall (k & r & Hk & He & Hne). by apply Hne, (Hall k r).
Qed.

(** X8.  [create_user] with an e-mail address that a stored user already has
    fails: the store refuses the insert, the request ends with status 500
    whose detail is the [str] of the integrity error, and no row is added. *)
Theorem create_user_duplicate_email
    (w : World) (user : UserCreate) (k : Z) (r : User.row) :
  faults w = [] → users w !! k = Some r → User.email r = email user →
  create_user user w = (Raise (HTTPException 500 (StrOf users_email_unique)), w)
  ∧ POST_users user w =
      ({| status_code := 500; body := Detail (StrOf users_email_unique) |}, w).
Proof.
  intros Hf Hk He.
  assert (Ht : email_taken (users w) None (email user) = true).
  { apply email_taken_true. by exists k, r. }
  pose proof (create_user_email_taken w user Hf Ht) as Hc.
  split; [done|]. unfold POST_users. by apply route_raise.
Qed.

Lemma create_user_duplicate_email_witness :
  create_user alice small_shop
  = (Raise (HTTPException 500 (StrOf users_email_unique)), small_shop).
Proof.
  exact (proj1 (create_user_duplicate_email small_shop alice 1 (User_values alice)
                  eq_refl eq_refl eq_refl)).
Defined.

(** X9.  [update_user] of a user that is there, with an e-mail address that
    no other user has, replaces the four fields of that row and of no other;
    the user then reads back as the submitted fields with the identifier. *)
Theorem update_user_then_read
    (w : World) (id : Z) (user : UserCreate) (r : User.row) :
  faults w = [] → fits_int64 id = true → users w !! id = Some r →
  (∀ k r', users w !! k = Some r' → User.email r' = email user → k = id) →
  ∃ d w',
    d = <["id" := VInt id]> (UserCreate_dict user)
    ∧ update_user id user w = (Ok d, w')
    ∧ users w' !! id = Some (User_values user)
    ∧ (∀ k, k ≠ id → users w' !! k = users w !! k)
    ∧ read_user id w' = (Ok d, w').
Proof.
  intros Hf Hi Hid Huniq.
  assert (He : email_conflict (users w) id (email user) = false).
  { unfold email_conflict. rewrite Hid. apply email_taken_false.
    intros k r' Hk Hr'. f_equal. by apply (Huniq k r'). }
  assert (Hrow : users (set_users (alter (fun _ => User_values user) id) w) !! id
                 = Some (User_values user)).
  { simpl. by rewrite lookup_alter_eq, Hid. }
  eexists _, _. split; [done|]. split; [by apply update_user_calm|].
  split; [exact Hrow|]. split.
  - intros k Hk. simpl. by apply lookup_alter_ne.
  - by apply (read_user_existing _ id (User_values user)).
Qed.

Lemma update_user_then_read_witness :
  ∃ d w',
    d = <["id" := VInt 1]> (UserCreate_dict bob)
    ∧ update_user 1 bob small_shop = (Ok d, w')
    ∧ users w' !! 1 = Some (User_values bob)
    ∧ (∀ k, k ≠ 1 → users w' !! k = users small_shop !! k)
    ∧ read_user 1 w' = (Ok d, w').
Proof.
  apply (update_user_then_read small_shop 1 bob (User_values alice));
    try reflexivity.
  intros k r' Hk He. simpl in Hk.
  apply lookup_singleton_Some in Hk as [<- <-]. done.
Defined.

(** X10.  [update_user] that would give a user the e-mail address of another
    stored user fails: the request ends with status 500 whose detail is the
    [str] of the integrity error, and no row changes. *)
Theorem update_user_email_conflict
    (w : World) (id k : Z) (user : UserCreate) (r r' : User.row) :
  faults w = [] → fits_int64 id = true →
  users w !! id = Some r → users w !! k = Some r' → k ≠ id →
  User.email r' = email user →
  update_user id user w = (Raise (HTTPException 500 (StrOf users_email_unique)), w)
  ∧ PUT_users id user w =
      ({| status_code := 500; body := Detail (StrOf users_email_unique) |}, w).
Proof.
  intros Hf Hi Hid Hk Hne He.
  assert (Hc : email_conflict (users w) id (email user) = true).
  { unfold email_conflict. rewrite Hid. apply email_taken_true.
    exists k, r'. split; [done|]. split; [done|]. by intros [= ->]. }
  assert (Hu : update_user id user w
               = (Raise (HTTPException 500 (StrOf users_email_unique)), w)).
  { handler_unfold. calm. by rewrite Hc. }
  split; [done|]. unfold PUT_users. by apply route_raise.
Qed.

Lemma update_user_email_conflict_witness :
  update_user 2 alice two_users
  = (Raise (HTTPException 500 (StrOf users_email_unique)), two_users).
Proof.
  refine (proj1 (update_user_email_conflict two_users 2 1 alice
                   (User_values bob) (User_values alice)
                   eq_refl eq_refl eq_refl eq_refl _ eq_refl)).
  lia.
Defined.

(** ** Creating rows *)

(** X11.  A user whose e-mail address no stored user has reads back as
    submitted: [create_user] answers with the submitted fields and an
    identifier that was not in use, and a read of that identifier returns the
    same dictionary, the password as it was submitted. *)
Theorem create_user_round_trip (w : World) (user : UserCreate) :
  faults w = [] → fits_int64 (next_rowid (users w)) = true →
  (∀ k r, users w !! k = Some r → User.email r ≠ email user) →
  ∃ id d w',
    create_user user w = (Ok d, w')
    ∧ d = <["id" := VInt id]> (UserCreate_dict user)
    ∧ users w !! id = None
    ∧ read_user id w' = (Ok d, w')
    ∧ POST_users user w = ({| status_code := 200; body := JSON d |}, w')
    ∧ GET_users id w' = ({| status_code := 200; body := JSON d |}, w')
    ∧ d !! "password" = Some (VStr (password user)).
Proof.
  intros Hf Hid Huniq.
  assert (He : email_taken (users w) None (email user) = false).
  { apply email_taken_false. intros k r Hk Hr. by destruct (Huniq k r Hk). }
  pose proof (create_user_calm w user Hf He Hid) as Hc. cbn zeta in Hc.
  assert (Hr : read_user (next_rowid (users w))
                 (set_users <[next_rowid (users w) := User_values user]> w)
               = (Ok (<["id" := VInt (next_rowid (users w))]> (UserCreate_dict user)),
                  set_users <[next_rowid (users w) := User_values user]> w)).
  { apply (read_user_existing _ _ (User_values user)); [done|done|].
    simpl. apply lookup_insert_eq. }
  eexists (next_rowid (users w)), _, _.
  split; [exact Hc|]. split; [done|]. split; [apply next_rowid_fresh|].
  split; [exact Hr|]. split; [|split; [|done]].
  - unfold POST_users, route. rewrite Hc.
    by rewrite render_ok by apply created_user_json.
  - unfold GET_users, route. rewrite Hr.
    by rewrite render_ok by apply created_user_json.
Qed.

Lemma create_user_round_trip_witness :
  ∃ id d w',
    create_user bob small_shop = (Ok d, w')
    ∧ d = <["id" := VInt id]> (UserCreate_dict bob)
    ∧ users small_shop !! id = None
    ∧ read_user id w' = (Ok d, w')
    ∧ POST_users bob small_shop = ({| status_code := 200; body := JSON d |}, w')
    ∧ GET_users id w' = ({| status_code := 200; body := JSON d |}, w')
    ∧ d !! "password" = Some (VStr (password bob)).
Proof.
  apply (create_user_round_trip small_shop bob); try reflexivity.
  intros k r Hk. simpl in Hk. apply lookup_singleton_Some in Hk as [<- <-].
  done.
Defined.

(** X12.  An item with a finite price reads back as submitted, but for the
    sign of a zero price: [create_item] answers with the submitted fields
    and an identifier that was not in use; the stored row holds the price as
    the store keeps it, and a read of that identifier returns the answer
    with that price.  That is the same dictionary unless the price is a
    negative zero, which reads back as zero. *)
Theorem create_item_round_trip (w : World) (item : ItemCreate) :
  faults w = [] → fits_int64 (next_rowid (items w)) = true →
  finite (price item) = true →
  ∃ id d d' w',
    create_item item w = (Ok d, w')
    ∧ d = <["id" := VInt id]> (ItemCreate_dict item)
    ∧ d' = <["price" := VFloat (store_real (price item))]> d
    ∧ items w !! id = None
    ∧ read_item id w' = (Ok d', w')
    ∧ POST_items item w = ({| status_code := 200; body := JSON d |}, w')
    ∧ GET_items id w' = ({| status_code := 200; body := JSON d' |}, w')
    ∧ (price item ≠ S754_zero true → d' = d)
    ∧ (price item = S754_zero true →
         d !! "price" = Some (VFloat (S754_zero true))
         ∧ d' !! "price" = Some (VFloat (S754_zero false))).
Proof.
  intros Hf Hid Hp.
  pose proof (create_item_calm w item Hf Hid) as Hc. cbn zeta in Hc.
  assert (Hrow : items (set_items <[next_rowid (items w) := Item_values item]> w)
                   !! next_rowid (items w) = Some (Item_values item)).
  { simpl. apply lookup_insert_eq. }
  eexists (next_rowid (items w)), _, (Item.to_dict _ (Item_values item)), _.
  split; [exact Hc|]. split; [done|]. split; [apply Item_values_to_dict|].
  split; [apply next_rowid_fresh|].
  split; [by apply read_item_existing|]. split; [|split; [|split]].
  - unfold POST_items, route. rewrite Hc, ItemRead_model_keeps_all.
    by rewrite render_ok by by apply created_item_json.
  - apply GET_items_existing; [done|done|done|].
    simpl. by rewrite store_real_finite.
  - intros Hz. by apply Item_values_to_dict_same.
  - intros Hz. unfold Item.to_dict, Item_values, ItemCreate_dict.
    cbn [Item.price]. rewrite Hz. split; reflexivity.
Qed.

Lemma create_item_round_trip_witness :
  ∃ id d d' w',
    create_item gadget small_shop = (Ok d, w')
    ∧ d = <["id" := VInt id]> (ItemCreate_dict gadget)
    ∧ d' = <["price" := VFloat (store_real (price gadget))]> d
    ∧ items small_shop !! id = None
    ∧ read_item id w' = (Ok d', w')
    ∧ POST_items gadget small_shop = ({| status_code := 200; body := JSON d |}, w')
    ∧ GET_items id w' = ({| status_code := 200; body := JSON d' |}, w')
    ∧ (price gadget ≠ S754_zero true → d' = d)
    ∧ (price gadget = S754_zero true →
         d !! "price" = Some (VFloat (S754_zero true))
         ∧ d' !! "price" = Some (VFloat (S754_zero false))).
Proof. apply (create_item_round_trip small_shop gadget); reflexivity. Defined.

Lemma order_response_redate (order : OrderCreate) (id : Z) (d d' : datetime) :
  <["order_date" := VDateTime d']> (order_response order id d)
  = order_response order id d'.
Proof. reflexivity. Qed.

(** X13.  [create_order] does not look up the user or the item it names:
    with a working driver, identifiers within the store's integers and a
    new identifier other than 0, it stores the order whatever the other
    tables hold, under an identifier that was not in use, with the status
    ["pending"].  The order then reads back as the response of the create
    with [order_date] replaced by the stored date; every other field
    agrees. *)
Theorem create_order_read_back (w : World) (order : OrderCreate) :
  faults w = [] → order_fits w order → next_rowid (orders w) ≠ 0 →
  ∃ id d d' w',
    create_order order w = (Ok d, w')
    ∧ orders w !! id = None
    ∧ orders w' !! id = Some (Order_values order (clock w (ticks w)) "pending")
    ∧ read_order id w' = (Ok d', w')
    ∧ d' = <["order_date" := VDateTime (clock w (ticks w))]> d
    ∧ d !! "id" = Some (VInt id)
    ∧ d !! "user_id" = Some (VInt (user_id order))
    ∧ d !! "item_id" = Some (VInt (item_id order))
    ∧ d !! "status" = Some (VStr "pending").
Proof.
  intros Hf Hfit _.
  eexists (next_rowid (orders w)), _, _, _.
  split; [by apply create_order_calm|]. split; [apply next_rowid_fresh|].
  split; [simpl; apply lookup_insert_eq|].
  split; [by apply read_order_after_create|].
  split; [by rewrite order_response_redate|]. by repeat split.
Qed.

Lemma create_order_read_back_witness :
  ∃ id d d' w',
    create_order an_order empty_world = (Ok d, w')
    ∧ orders empty_world !! id = None
    ∧ orders w' !! id = Some (Order_values an_order (utc 0) "pending")
    ∧ read_order id w' = (Ok d', w')
    ∧ d' = <["order_date" := VDateTime (utc 0)]> d
    ∧ d !! "id" = Some (VInt id)
    ∧ d !! "user_id" = Some (VInt 1)
    ∧ d !! "item_id" = Some (VInt 1)
    ∧ d !! "status" = Some (VStr "pending").
Proof.
  apply (create_order_read_back empty_world an_order); [reflexivity| |done].
  repeat split; reflexivity.
Defined.

Lemma run_insert_keeps_rows {A} (r : A) (t : gmap Z A) (k : Z) :
  is_Some (t !! k) →
  match insert_row r t with
  | Ok (_, t') => t' !! k = t !! k
  | Raise _ => True
  end.
Proof.
  intros Hk. destruct (insert_row r t) as [[id t']|e] eqn:Hins; [|done].
  by apply (insert_row_old r t t' id k).
Qed.

(** X14.  A create never overwrites or removes a row: whatever the state of
    the store and whatever the outcome of the request, every user, item or
    order that was there before [create_user], [create_item] or
    [create_order] is there afterwards, unchanged. *)
Theorem create_keeps_existing_rows
    (user : UserCreate) (item : ItemCreate) (order : OrderCreate)
    (w : World) (k : Z) :
  (is_Some (users w !! k) → users (create_user user w).2 !! k = users w !! k)
  ∧ (is_Some (items w !! k) → items (create_item item w).2 !! k = items w !! k)
  ∧ (is_Some (orders w !! k) → orders (create_order order w).2 !! k = orders w !! k).
Proof.
  repeat split; intros Hk; handler_unfold;
    unfold execute, driver_call, bind_params; step.
  - destruct (faults w) as [|[e|] l]; step; try done;
      cbn [forallb Statement_params]; step;
      (destruct (email_taken _ _ _); [done|]);
      pose proof (run_insert_keeps_rows (User_values user) (users w) k Hk) as H;
      by destruct (insert_row _ _) as [[id t']|e].
  - destruct (faults w) as [|[e|] l]; step; try done;
      cbn [forallb Statement_params]; step;
      pose proof (run_insert_keeps_rows (Item_values item) (items w) k Hk) as H;
      by destruct (insert_row _ _) as [[id t']|e].
  - destruct (faults w) as [|[e|] l]; step; try done;
      (destruct (forallb _ _); [|done]); step;
      pose proof (run_insert_keeps_rows
                    (Order_values order (clock w (ticks w)) "pending")
                    (orders w) k Hk) as H;
      by destruct (insert_row _ _) as [[id t']|e].
Qed.

Lemma create_keeps_existing_rows_witness :
  users (create_user bob small_shop).2 !! 1 = Some (User_values alice)
  ∧ items (create_item gadget small_shop).2 !! 1 = Some (Item_values widget)
  ∧ orders (create_order an_order small_shop).2 !! 1
    = Some (Order_values an_order (utc 0) "pending").
Proof.
  destruct (create_keeps_existing_rows bob gadget an_order small_shop 1)
    as (Hu & Hi & Ho).
  split; [|split].
  - rewrite Hu; [reflexivity|]. by eexists.
  - rewrite Hi; [reflexivity|]. by eexists.
  - rewrite Ho; [reflexivity|]. by eexists.
Defined.

(** ** The identifiers of new rows *)

Lemma foldr_max_in (k : Z) (ks : list Z) : foldr Z.max k ks ∈ k :: ks.
Proof.
  induction ks as [|a ks IH]; simpl; [apply list_elem_of_here|].
  destruct (Z.max_spec a (foldr Z.max k ks)) as [[_ ->]|[_ ->]].
  - apply elem_of_cons in IH as [IH|IH].
    + rewrite IH. apply list_elem_of_here.
    + by do 2 apply list_elem_of_further.
  - apply list_elem_of_further, list_elem_of_here.
Qed.

Lemma max_rowid_key {A} (t : gmap Z A) (m : Z) :
  max_rowid t = Some m → is_Some (t !! m).
Proof.
  unfold max_rowid. destruct ((map_to_list t).*1) as [|k ks] eqn:Hl; [done|].
  intros [= <-]. pose proof (foldr_max_in k ks) as Hin. rewrite <- Hl in Hin.
  apply list_elem_of_fmap in Hin as ([k' x] & -> & Hin).
  apply elem_of_map_to_list in Hin. by eexists.
Qed.

(** After an insert the next identifier is one higher. *)
Lemma next_rowid_insert {A} (t : gmap Z A) (r : A) :
  next_rowid (<[next_rowid t := r]> t) = next_rowid t + 1.
Proof.
  set (n := next_rowid t).
  destruct (max_rowid_ge (<[n := r]> t) n) as (m & Hm & Hle).
  { rewrite lookup_insert_eq. by eexists. }
  unfold next_rowid at 1. rewrite Hm. f_equal.
  destruct (max_rowid_key _ _ Hm) as [x Hx].
  destruct (decide (m = n)) as [|Hne]; [done|].
  rewrite lookup_insert_ne in Hx by done.
  destruct (max_rowid_ge t m) as (m0 & Hm0 & Hle0); [by eexists|].
  subst n. unfold next_rowid in Hle, Hne. rewrite Hm0 in Hle, Hne. lia.
Qed.

(** X15.  Identifiers are handed out in order: two items created one after
    the other get identifiers that differ by one, and both rows are there
    afterwards. *)
Theorem create_item_twice (w : World) (a b : ItemCreate) :
  faults w = [] →
  fits_int64 (next_rowid (items w)) = true →
  fits_int64 (next_rowid (items w) + 1) = true →
  ∃ id da db w1 w2,
    create_item a w = (Ok da, w1)
    ∧ create_item b w1 = (Ok db, w2)
    ∧ da !! "id" = Some (VInt id)
    ∧ db !! "id" = Some (VInt (id + 1))
    ∧ items w2 !! id = Some (Item_values a)
    ∧ items w2 !! (id + 1) = Some (Item_values b).
Proof.
  intros Hf H1 H2. set (n := next_rowid (items w)) in *.
  pose proof (create_item_calm w a Hf H1) as Ha. cbn zeta in Ha. fold n in Ha.
  set (w1 := set_items <[n := Item_values a]> w) in *.
  assert (Hn1 : next_rowid (items w1) = n + 1) by apply next_rowid_insert.
  assert (Hf1 : faults w1 = []) by done.
  assert (H21 : fits_int64 (next_rowid (items w1)) = true) by by rewrite Hn1.
  pose proof (create_item_calm w1 b Hf1 H21) as Hb. cbn zeta in Hb.
  rewrite Hn1 in Hb.
  eexists n, _, _, _, _. split; [exact Ha|]. split; [exact Hb|].
  split; [reflexivity|]. split; [reflexivity|]. simpl. split.
  - rewrite lookup_insert_ne by lia. apply lookup_insert_eq.
  - apply lookup_insert_eq.
Qed.

Lemma create_item_twice_witness :
  ∃ id da db w1 w2,
    create_item widget empty_world = (Ok da, w1)
    ∧ create_item gadget w1 = (Ok db, w2)
    ∧ da !! "id" = Some (VInt id)
    ∧ db !! "id" = Some (VInt (id + 1))
    ∧ items w2 !! id = Some (Item_values widget)
    ∧ items w2 !! (id + 1) = Some (Item_values gadget).
Proof. apply (create_item_twice empty_world widget gadget); reflexivity. Defined.

(** ** The status of an order *)

Lemma OrderResponse_model_keeps_row (id : Z) (r : Order.row) :
  model_validate OrderResponse_fields (Order.to_dict id r)
  = Some (Order.to_dict id r).
Proof. reflexivity. Qed.

(** X16.  For an order that is there and a status of letters, digits,
    underscores and spaces, [update_order] writes the status into that row
    and into no other and returns the row with the new status, the other
    columns being as they were; a read then returns the same.  A request
    without a status writes ["pending"], whatever the status was. *)
Theorem update_order_replaces_status
    (w : World) (id : Z) (r : Order.row) (status : option string) :
  faults w = [] → fits_int64 id = true → orders w !! id = Some r →
  plain (default "pending" status) = true →
  ∃ d w',
    d = Order.to_dict id (Order.set_status (default "pending" status) r)
    ∧ update_order id (default "pending" status) w = (Ok d, w')
    ∧ PUT_orders id status w = ({| status_code := 200; body := JSON d |}, w')
    ∧ orders w' !! id = Some (Order.set_status (default "pending" status) r)
    ∧ (∀ k, k ≠ id → orders w' !! k = orders w !! k)
    ∧ read_order id w' = (Ok d, w')
    ∧ d !! "order_date" = Some (VDateTime (Order.order_date r))
    ∧ d !! "user_id" = Some (VInt (Order.user_id r))
    ∧ d !! "item_id" = Some (VInt (Order.item_id r)).
Proof.
  intros Hf Hi Hid Hp. set (s := default "pending" status) in *.
  pose proof (update_order_plain w id r s Hf Hi Hid Hp) as Hu.
  rewrite to_dict_set_status in Hu.
  assert (Hrow : orders (set_orders (alter (Order.set_status s) id) w) !! id
                 = Some (Order.set_status s r)).
  { simpl. by rewrite lookup_alter_eq, Hid. }
  eexists _, _. split; [done|]. split; [exact Hu|].
  split; [|split; [exact Hrow|split; [|split; [|done]]]].
  - unfold PUT_orders, route. fold s. rewrite Hu, OrderResponse_model_keeps_row.
    by rewrite render_ok by apply Order_to_dict_json.
  - intros k Hk. simpl. by apply lookup_alter_ne.
  - by apply read_order_existing.
Qed.

Lemma update_order_replaces_status_witness :
  ∃ d w',
    d = Order.to_dict 1 (Order.set_status "pending"
                           (Order_values an_order (utc 0) "shipped"))
    ∧ update_order 1 "pending" (update_order 1 "shipped" small_shop).2 = (Ok d, w')
    ∧ PUT_orders 1 None (update_order 1 "shipped" small_shop).2
      = ({| status_code := 200; body := JSON d |}, w')
    ∧ orders w' !! 1
      = Some (Order.set_status "pending" (Order_values an_order (utc 0) "shipped"))
    ∧ (∀ k, k ≠ 1 →
         orders w' !! k = orders (update_order 1 "shipped" small_shop).2 !! k)
    ∧ read_order 1 w' = (Ok d, w')
    ∧ d !! "order_date" = Some (VDateTime (utc 0))
    ∧ d !! "user_id" = Some (VInt 1)
    ∧ d !! "item_id" = Some (VInt 1).
Proof.
  assert (Hw : (update_order 1 "shipped" small_shop).2
               = set_orders (alter (Order.set_status "shipped") 1) small_shop).
  { by rewrite (update_order_plain small_shop 1
                  (Order_values an_order (utc 0) "pending") "shipped"). }
  rewrite Hw.
  apply (update_order_replaces_status
           (set_orders (alter (Order.set_status "shipped") 1) small_shop) 1
           (Order_values an_order (utc 0) "shipped") None); reflexivity.
Defined.

(** ** The status codes *)

Lemma render_status (d : Dict) :
  status_code (render d) = 200 ∨ status_code (render d) = 500.
Proof. unfold render. destruct (bool_decide _); [by left|by right]. Qed.

Lemma route_status model (h : M Dict) (w : World) :
  (∀ e, (h w).1 = Raise e → ∃ m, e = HTTPException 500 m) →
  status_code (route model h w).1 = 200 ∨ status_code (route model h w).1 = 500.
Proof.
  intros Hraise. unfold route. destruct (h w) as [[d|e] w']; simpl in *.
  - destruct model as [fields|]; [|apply render_status].
    destruct (model_validate fields d); [apply render_status|by right].
  - destruct (Hraise e eq_refl) as [m ->]. by right.
Qed.

Lemma reporting_handler_status model
    user item order id status (h : M Dict) (w : World) :
  h ∈ handlers_reporting_str user item order id status →
  status_code (route model h w).1 = 200 ∨ status_code (route model h w).1 = 500.
Proof.
  intros Hh. apply route_status. intros e He.
  destruct (handlers_raise_500_str user item order id status h w e Hh He) as [e0 ->].
  by eexists.
Qed.

(** X17.  No request that reaches a handler is ever answered with a status
    other than 200 or 500: each of the twelve routes, in every state of the
    store and for every input of the declared types, ends with one of the
    two.  In particular none of them answers 404. *)
Theorem routes_answer_200_or_500
    (user : UserCreate) (item : ItemCreate) (order : OrderCreate)
    (id : Z) (status : option string) (w : World) :
  Forall (fun r : World → Response * World =>
            status_code (r w).1 = 200 ∨ status_code (r w).1 = 500)
         (routes user item order id status).
Proof.
  unfold routes.
  repeat apply Forall_cons_2; try apply Forall_nil_2;
    try (eapply (reporting_handler_status _ user item order id
                   (default "pending" status));
         unfold handlers_reporting_str; set_solver).
  unfold GET_users. apply route_status. intros e He.
  rewrite (read_user_raises_fixed_detail w id e He). by eexists.
Qed.

(** ** Identifiers after a delete *)

(** X18.  An identifier is given out again once the row that had it is
    gone: when the user that was created last is deleted, the next user that
    is created gets the same identifier.  The orders are not touched by any
    of this, so an order that named the deleted user names the new one. *)
Theorem deleted_user_id_is_reused (w : World) (a b : UserCreate) :
  faults w = [] → fits_int64 (next_rowid (users w)) = true →
  (∀ k r, users w !! k = Some r → User.email r ≠ email a) →
  (∀ k r, users w !! k = Some r → User.email r ≠ email b) →
  ∃ id w1 w2 w3,
    create_user a w = (Ok (<["id" := VInt id]> (UserCreate_dict a)), w1)
    ∧ delete_user id w1 = (Ok (message "User deleted"), w2)
    ∧ create_user b w2 = (Ok (<["id" := VInt id]> (UserCreate_dict b)), w3)
    ∧ users w3 !! id = Some (User_values b)
    ∧ orders w3 = orders w.
Proof.
  intros Hf Hid Ha Hb. set (n := next_rowid (users w)) in *.
  assert (Hea : email_taken (users w) None (email a) = false).
  { apply email_taken_false. intros k r Hk Hr. by destruct (Ha k r Hk). }
  assert (Heb : email_taken (users w) None (email b) = false).
  { apply email_taken_false. intros k r Hk Hr. by destruct (Hb k r Hk). }
  pose proof (create_user_calm w a Hf Hea Hid) as Hc. cbn zeta in Hc. fold n in Hc.
  set (w1 := set_users <[n := User_values a]> w) in *.
  assert (Hfit : fits_int64 n = true) by done.
  assert (Hf1 : faults w1 = []) by exact Hf.
  pose proof (delete_user_calm w1 n Hf1 Hfit) as Hd.
  set (w2 := set_users (delete n) w1) in *.
  assert (Hu2 : users w2 = users w).
  { simpl. apply delete_insert_id. apply next_rowid_fresh. }
  assert (Hc2 : create_user b w2
                = (Ok (<["id" := VInt n]> (UserCreate_dict b)),
                   set_users <[n := User_values b]> w2)).
  { pose proof (create_user_calm w2 b) as H. cbn zeta in H.
    rewrite Hu2 in H. by apply H. }
  exists n, w1, w2, (set_users <[n := User_values b]> w2).
  split; [exact Hc|]. split; [exact Hd|]. split; [exact Hc2|].
  split; [simpl; apply lookup_insert_eq|done].
Qed.

Lemma deleted_user_id_is_reused_witness :
  ∃ id w1 w2 w3,
    create_user alice empty_world
    = (Ok (<["id" := VInt id]> (UserCreate_dict alice)), w1)
    ∧ delete_user id w1 = (Ok (message "User deleted"), w2)
    ∧ create_user bob w2 = (Ok (<["id" := VInt id]> (UserCreate_dict bob)), w3)
    ∧ users w3 !! id = Some (User_values bob)
    ∧ orders w3 = orders empty_world.
Proof.
  apply (deleted_user_id_is_reused empty_world alice bob); try reflexivity.
  - intros k r Hk. simpl in Hk. by rewrite lookup_empty in Hk.
  - intros k r Hk. simpl in Hk. by rewrite lookup_empty in Hk.
Defined.

(** The handlers that leave the users as they were. *)
Lemma handlers_keep_other_tables_users
    (user : UserCreate) (item : ItemCreate) (order : OrderCreate)
    (id : Z) (status : string) :
  keeps users (read_user id)
  ∧ Forall (fun h : M Dict => keeps users h) (item_handlers item id)
  ∧ Forall (fun h : M Dict => keeps users h) (order_handlers order id status).
Proof.
  unfold item_handlers, order_handlers.
  repeat split; repeat apply Forall_cons_2; try apply Forall_nil_2;
    solve [frame ltac:(apply run_statement_keeps_users)].
Qed.

(** ** The e-mail addresses stay distinct *)

Lemma create_user_users (w : World) (user : UserCreate) :
  users (create_user user w).2 = users w
  ∨ (email_taken (users w) None (email user) = false
     ∧ users (create_user user w).2
       = <[next_rowid (users w) := User_values user]> (users w)).
Proof.
  handler_unfold. unfold execute, driver_call, bind_params.
  destruct (faults w) as [|[e|] l]; step; cbn [forallb Statement_params]; step;
    try (by left);
    (destruct (email_taken _ _ _) eqn:He; [by left|]);
    unfold insert_row; (destruct (fits_int64 _); [by right|by left]).
Qed.

Lemma update_user_users (w : World) (id : Z) (user : UserCreate) :
  users (update_user id user w).2 = users w
  ∨ (email_conflict (users w) id (email user) = false
     ∧ users (update_user id user w).2
       = alter (fun _ => User_values user) id (users w)).
Proof.
  handler_unfold. unfold execute, driver_call, bind_params.
  destruct (faults w) as [|[e|] l]; step; cbn [forallb Statement_params andb];
    try (by left);
    (destruct (fits_int64 id); cbn [andb]; step; [|by left]);
    (destruct (email_conflict _ _ _) eqn:He; [by left|by right]).
Qed.

Lemma delete_user_users (w : World) (id : Z) :
  users (delete_user id w).2 = users w
  ∨ users (delete_user id w).2 = delete id (users w).
Proof.
  handler_unfold. unfold execute, driver_call, bind_params.
  destruct (faults w) as [|[e|] l]; step; cbn [forallb Statement_params andb];
    try (by left);
    (destruct (fits_int64 id); cbn [andb]; step; [by right|by left]).
Qed.

Lemma emails_unique_insert (t : gmap Z User.row) (n : Z) (r : User.row) :
  emails_unique t → t !! n = None →
  email_taken t None (User.email r) = false →
  emails_unique (<[n := r]> t).
Proof.
  intros Hu Hn He k k' x x' Hk Hk' Hxx'.
  rewrite email_taken_false in He.
  destruct (decide (n = k)) as [Hnk|Hnk], (decide (n = k')) as [Hnk'|Hnk'].
  - congruence.
  - rewrite <- Hnk, lookup_insert_eq in Hk. injection Hk as <-.
    rewrite lookup_insert_ne in Hk' by done.
    by specialize (He k' x' Hk' (eq_sym Hxx')).
  - rewrite <- Hnk', lookup_insert_eq in Hk'. injection Hk' as <-.
    rewrite lookup_insert_ne in Hk by done.
    by specialize (He k x Hk Hxx').
  - rewrite lookup_insert_ne in Hk, Hk' by done. by apply (Hu k k' x x').
Qed.

Lemma emails_unique_alter (t : gmap Z User.row) (id : Z) (r : User.row) :
  emails_unique t → email_conflict t id (User.email r) = false →
  emails_unique (alter (fun _ => r) id t).
Proof.
  intros Hu He k k' x x' Hk Hk' Hxx'. unfold email_conflict in He.
  destruct (decide (id = k)) as [Hnk|Hnk], (decide (id = k')) as [Hnk'|Hnk'].
  - congruence.
  - rewrite <- Hnk, lookup_alter_eq in Hk.
    rewrite lookup_alter_ne in Hk' by done.
    destruct (t !! id) as [r0|]; [|done]. injection Hk as <-.
    rewrite email_taken_false in He.
    specialize (He k' x' Hk' (eq_sym Hxx')). congruence.
  - rewrite <- Hnk', lookup_alter_eq in Hk'.
    rewrite lookup_alter_ne in Hk by done.
    destruct (t !! id) as [r0|]; [|done]. injection Hk' as <-.
    rewrite email_taken_false in He.
    specialize (He k x Hk Hxx'). congruence.
  - rewrite lookup_alter_ne in Hk, Hk' by done. by apply (Hu k k' x x').
Qed.

Lemma emails_unique_delete (t : gmap Z User.row) (id : Z) :
  emails_unique t → emails_unique (delete id t).
Proof.
  intros Hu k k' x x' Hk Hk' Hxx'.
  apply lookup_delete_Some in Hk as [_ Hk].
  apply lookup_delete_Some in Hk' as [_ Hk'].
  by apply (Hu k k' x x').
Qed.

(** X21.  The e-mail addresses of the stored users stay pairwise distinct:
    if they are before a request, they are after it, for each of the twelve
    handlers, every input and every outcome. *)
Theorem emails_stay_unique
    (user : UserCreate) (item : ItemCreate) (order : OrderCreate)
    (id : Z) (status : string) (w : World) :
  emails_unique (users w) →
  Forall (fun h : M Dict => emails_unique (users (h w).2))
         (all_handlers user item order id status).
Proof.
  intros Hu.
  destruct (handlers_keep_other_tables_users user item order id status)
    as (Hread & Hitems & Horders).
  unfold all_handlers. apply Forall_app. split; [|apply Forall_app; split].
  - unfold user_handlers. repeat apply Forall_cons_2; [| | | |apply Forall_nil_2].
    + destruct (create_user_users w user) as [->|[He ->]]; [done|].
      apply emails_unique_insert; [done|apply next_rowid_fresh|done].
    + by rewrite Hread.
    + destruct (update_user_users w id user) as [->|[He ->]]; [done|].
      by apply emails_unique_alter.
    + destruct (delete_user_users w id) as [->| ->]; [done|].
      by apply emails_unique_delete.
  - eapply Forall_impl; [exact Hitems|]. intros h Hh. by rewrite Hh.
  - eapply Forall_impl; [exact Horders|]. intros h Hh. by rewrite Hh.
Qed.

Lemma emails_stay_unique_witness :
  Forall (fun h : M Dict => emails_unique (users (h small_shop).2))
         (all_handlers bob gadget an_order 1 "shipped").
Proof.
  apply (emails_stay_unique bob gadget an_order 1 "shipped" small_shop).
  intros k k' r r' Hk Hk' _. simpl in Hk, Hk'.
  apply lookup_singleton_Some in Hk as [<- _].
  by apply lookup_singleton_Some in Hk' as [<- _].
Defined.

(** ** A quote in the status, in general *)

Lemma plain_one_line (s : string) :
  plain s = true → string_forall (fun c => negb (is_newline c)) s = true.
Proof.
  apply string_forall_impl. intros c.
  destruct c as [[] [] [] [] [] [] [] []]; vm_compute; done.
Qed.

(** A quote followed by a comment mark: what comes before the quote is the
    status of the statement, and the statement has lost its [WHERE]. *)
Lemma parse_update_sql_comment_mark (p rest : string) (id : Z) :
  plain p = true → plain rest = true →
  parse_sql (update_sql (p ++ "' --" ++ rest) id)
  = Some (UpdateOrdersStatus p None).
Proof.
  intros Hp Hrest. unfold parse_sql, update_sql. rewrite !append_assoc.
  lex_part.
  rewrite lex_app, (lex_run_literal "" p (plain_no_quote p Hp)). cbn [fst snd].
  change ("" ++ p) with p.
  lex_part.
  rewrite lex_comment; [done|].
  rewrite !string_forall_app, (plain_one_line rest Hrest), int_str_one_line.
  done.
Qed.

(** X19.  A status that holds a quote followed by a comment mark rewrites
    every order: for an order that is there and any two plain texts [p] and
    [rest], the status [p' --rest] gives the status [p] to all orders, the
    addressed one and the others, while the answer shows the submitted
    string. *)
Theorem update_order_comment_injection
    (w : World) (id : Z) (r : Order.row) (p rest : string) :
  faults w = [] → fits_int64 id = true → orders w !! id = Some r →
  plain p = true → plain rest = true →
  update_order id (p ++ "' --" ++ rest) w =
    (Ok (<["status" := VStr (p ++ "' --" ++ rest)]> (Order.to_dict id r)),
     set_orders (fmap (Order.set_status p)) w)
  ∧ (∀ k r', orders w !! k = Some r' →
       orders (update_order id (p ++ "' --" ++ rest) w).2 !! k
       = Some (Order.set_status p r')).
Proof.
  intros Hf Hi Hid Hp Hrest.
  assert (Hu : update_order id (p ++ "' --" ++ rest) w =
    (Ok (<["status" := VStr (p ++ "' --" ++ rest)]> (Order.to_dict id r)),
     set_orders (fmap (Order.set_status p)) w)).
  { rewrite (update_order_run w id r _ Hf Hi Hid). unfold run_text.
    by rewrite parse_update_sql_comment_mark. }
  split; [exact Hu|]. intros k r' Hk. rewrite Hu. simpl.
  by rewrite lookup_fmap, Hk.
Qed.

Lemma update_order_comment_injection_witness :
  update_order 1 ("cancelled" ++ "' --" ++ " by me") two_orders =
    (Ok (<["status" := VStr ("cancelled" ++ "' --" ++ " by me")]>
           (Order.to_dict 1 (Order_values an_order (utc 0) "pending"))),
     set_orders (fmap (Order.set_status "cancelled")) two_orders).
Proof.
  exact (proj1 (update_order_comment_injection two_orders 1
                  (Order_values an_order (utc 0) "pending") "cancelled" " by me"
                  eq_refl eq_refl eq_refl eq_refl eq_refl)).
Defined.

(** X20.  A status that holds one quote is never stored: for an order that
    is there and any two plain texts [p] and [q], the status [p'q] makes a
    text the store refuses; the request ends with status 500 and no order
    changes. *)
Theorem update_order_one_quote
    (w : World) (id : Z) (r : Order.row) (p q : string) :
  faults w = [] → fits_int64 id = true → orders w !! id = Some r →
  plain p = true → plain q = true →
  update_order id (p ++ "'" ++ q) w =
    (Raise (HTTPException 500
              (StrOf (OperationalError (update_sql (p ++ "'" ++ q) id)))), w)
  ∧ status_code (PUT_orders id (Some (p ++ "'" ++ q)) w).1 = 500.
Proof.
  intros Hf Hi Hid Hp Hq.
  assert (Hu : update_order id (p ++ "'" ++ q) w =
    (Raise (HTTPException 500
              (StrOf (OperationalError (update_sql (p ++ "'" ++ q) id)))), w)).
  { rewrite (update_order_run w id r _ Hf Hi Hid). unfold run_text.
    by rewrite parse_update_sql_one_quote. }
  split; [exact Hu|]. unfold PUT_orders. simpl default.
  by erewrite route_raise by exact Hu.
Qed.

Lemma update_order_one_quote_witness :
  update_order 1 ("O" ++ "'" ++ "Brien") two_orders =
    (Raise (HTTPException 500
              (StrOf (OperationalError (update_sql ("O" ++ "'" ++ "Brien") 1)))),
     two_orders).
Proof.
  exact (proj1 (update_order_one_quote two_orders 1
                  (Order_values an_order (utc 0) "pending") "O" "Brien"
                  eq_refl eq_refl eq_refl eq_refl eq_refl)).
Defined.
